(** * astrbot_network_error_plugin: retry / recall / notice wrapper

    A shallow embedding of [src/astrbot_network_error_plugin.py] and the
    properties of its retry state machine.

    Modelling conventions.
    - The last-sent registry [last_sent_message_ids] is a Python dict from
      channel ids to message ids: a [gmap string string].
    - A configuration dict is a [gmap string pyval] over a small universe of
      Python values; floats are represented by the rational they denote
      (rounding and the IEEE special values are outside the model).
    - Exceptions carry their class and the text [str(error)] yields.  The
      classes are the ones the code tells apart: the two signals named in
      [except (KeyboardInterrupt, asyncio.CancelledError)], which are not
      instances of [Exception], and below [Exception] the classes
      [NetworkError], [TypeError] and everything else.
    - Awaited collaborators ([next_action], [asyncio.sleep], [recall_message],
      [send_message]) are answered by an environment, call by call; every
      call is appended to a trace.  While the coroutine is suspended outside
      [_message_ids_lock], other tasks may rewrite the registry.
    - Log output is not modelled: [log_sensitive_info] only selects between
      log lines. *)

From Stdlib Require Import Ascii QArith.
From stdpp Require Import gmap strings list fin_maps pretty.

Local Open Scope Z_scope.

(** ** Text: [str.lower] and the [in] operator on strings *)

Module Text.

(** [str.lower] on one character: [A]..[Z] move to [a]..[z]; every other
    character stays. *)
Definition lower_char (c : ascii) : ascii :=
  let n := N_of_ascii c in
  if ((65 <=? n) && (n <=? 90))%N then ascii_of_N (n + 32) else c.

Fixpoint lower (s : string) : string :=
  match s with
  | EmptyString => EmptyString
  | String c s' => String (lower_char c) (lower s')
  end.

Fixpoint startswith (needle s : string) : bool :=
  match needle, s with
  | EmptyString, _ => true
  | String a needle', String b s' =>
      if Ascii.eqb a b then startswith needle' s' else false
  | String _ _, EmptyString => false
  end.

(** [needle in s] *)
Fixpoint contains (needle s : string) : bool :=
  match s with
  | EmptyString => startswith needle EmptyString
  | String _ s' => startswith needle s || contains needle s'
  end.

(** What the specification calls a case-insensitive occurrence: some
    stretch of the text equals the word once both are lower-cased. *)
Definition occurs_ignoring_case (word s : string) : Prop :=
  ∃ pre mid post, s = pre +:+ mid +:+ post ∧ lower mid = lower word.

End Text.

(** ** Results of fallible code *)

Inductive result (E A : Type) : Type :=
  | Returned (a : A)
  | Raised (e : E).
Arguments Returned {E A} a.
Arguments Raised {E A} e.

(** ** Exceptions *)

(** The two classes caught by
    [except (KeyboardInterrupt, asyncio.CancelledError)]; neither is a
    subclass of [Exception]. *)
Inductive signal : Type := KeyboardInterrupt | CancelledError.

Inductive exc_class : Type :=
  | BaseSignal (s : signal)
  | NetworkError
  | TypeError
  | OtherException.

(** An exception object: its class and the text [str(error)] returns. *)
Record exn : Type := Exn { exn_class : exc_class; exn_str : string }.

(** [isinstance(error, Exception)] *)
Definition isinstance_Exception (error : exn) : bool :=
  match exn_class error with
  | BaseSignal _ => false
  | _ => true
  end.

(** Matches the clause [except (KeyboardInterrupt, asyncio.CancelledError)]. *)
Definition is_signal (error : exn) : bool :=
  match exn_class error with
  | BaseSignal _ => true
  | _ => false
  end.

Definition isinstance_NetworkError (error : exn) : bool :=
  match exn_class error with NetworkError => true | _ => false end.

Definition isinstance_TypeError (error : exn) : bool :=
  match exn_class error with TypeError => true | _ => false end.

(** ** The classifier [is_network_error] *)

Definition is_network_error (error : exn) : bool :=
  if isinstance_NetworkError error then true
  else
    let error_message := Text.lower (exn_str error) in
    if Text.contains "network" error_message
       || Text.contains "timeout" error_message
       || Text.contains "connection reset" error_message
       || Text.contains "connection refused" error_message
       || Text.contains "host unreachable" error_message
       || Text.contains "name or service not known" error_message
    then true
    else if isinstance_TypeError error
            && (Text.contains "fetch" error_message
                || Text.contains "network request" error_message)
    then true
    else false.

(** The words of the specification's second rule. *)
Definition network_words : list string :=
  [ "network"; "timeout"; "connection reset"; "connection refused";
    "host unreachable"; "name or service not known" ]%string.

(** The classifier as the specification words it (section 4.1). *)
Definition isTransient_spec (error : exn) : Prop :=
  exn_class error = NetworkError
  ∨ (∃ word, word ∈ network_words ∧ Text.occurs_ignoring_case word (exn_str error))
  ∨ (exn_class error = TypeError
     ∧ (Text.occurs_ignoring_case "fetch" (exn_str error)
        ∨ Text.occurs_ignoring_case "network request" (exn_str error))).

(** ** Configuration *)

(** The Python values a configuration dict may hold. *)
Inductive pyval : Type :=
  | PyNone
  | PyBool (b : bool)
  | PyInt (z : Z)
  | PyFloat (q : Q)
  | PyStr (s : string)
  | PyOther.

(** [isinstance(v, int)]: [bool] is a subclass of [int]. *)
Definition isinstance_int (v : pyval) : bool :=
  match v with PyInt _ | PyBool _ => true | _ => false end.

(** [isinstance(v, (int, float))] *)
Definition isinstance_int_float (v : pyval) : bool :=
  match v with PyInt _ | PyBool _ | PyFloat _ => true | _ => false end.

Definition isinstance_str (v : pyval) : bool :=
  match v with PyStr _ => true | _ => false end.

Definition isinstance_bool (v : pyval) : bool :=
  match v with PyBool _ => true | _ => false end.

(** The integer an [int] instance stands for ([True] is 1, [False] is 0). *)
Definition int_value (v : pyval) : Z :=
  match v with
  | PyInt z => z
  | PyBool b => Z.b2z b
  | _ => 0
  end.

(** The number an [int] or [float] instance stands for. *)
Definition num_value (v : pyval) : Q :=
  match v with
  | PyFloat q => q
  | _ => inject_Z (int_value v)
  end.

Definition str_value (v : pyval) : string :=
  match v with PyStr s => s | _ => EmptyString end.

Definition bool_value (v : pyval) : bool :=
  match v with PyBool b => b | _ => false end.

Definition DEFAULT_CONFIG : gmap string pyval :=
  <[ "retry_attempts" := PyInt 3 ]>
  (<[ "retry_delay_base" := PyInt 1000 ]>
  (<[ "error_message" := PyStr "抱歉，发生网络错误，消息已撤回。" ]>
  (<[ "log_sensitive_info" := PyBool false ]>
  (<[ "recall_retry_attempts" := PyInt 2 ]>
  (<[ "recall_retry_delay_base" := PyInt 500 ]> ∅))))).

(** [config.get(key)]: [None] for a missing key. *)
Definition dict_get (config : gmap string pyval) (key : string) : pyval :=
  default PyNone (config !! key).

(** The [ValueError] raised by [validate_config], by the check that raises it. *)
Inductive ValueError : Type :=
  | invalid_retry_attempts
  | invalid_retry_delay_base
  | invalid_error_message
  | invalid_log_sensitive_info
  | invalid_recall_retry_attempts
  | invalid_recall_retry_delay_base.

Definition validate_config (config : gmap string pyval) : result ValueError unit :=
  if negb (isinstance_int (dict_get config "retry_attempts"))
     || (int_value (dict_get config "retry_attempts") <? 0)
  then Raised invalid_retry_attempts
  else if negb (isinstance_int_float (dict_get config "retry_delay_base"))
          || Qle_bool (num_value (dict_get config "retry_delay_base")) 0
  then Raised invalid_retry_delay_base
  else if negb (isinstance_str (dict_get config "error_message"))
  then Raised invalid_error_message
  else if negb (isinstance_bool (dict_get config "log_sensitive_info"))
  then Raised invalid_log_sensitive_info
  else if negb (isinstance_int (dict_get config "recall_retry_attempts"))
          || (int_value (dict_get config "recall_retry_attempts") <? 0)
  then Raised invalid_recall_retry_attempts
  else if negb (isinstance_int_float (dict_get config "recall_retry_delay_base"))
          || Qle_bool (num_value (dict_get config "recall_retry_delay_base")) 0
  then Raised invalid_recall_retry_delay_base
  else Returned tt.

(** The constraints of the specification (section 4.2), over Python's own
    notion of an integer ([bool] included) and of a number. *)
Definition is_integer (v : pyval) (n : Z) : Prop :=
  v = PyInt n ∨ ∃ b, v = PyBool b ∧ n = Z.b2z b.

Definition is_number (v : pyval) (q : Q) : Prop :=
  v = PyFloat q ∨ ∃ n, is_integer v n ∧ q = inject_Z n.

(** Negative or not an integer. *)
Definition not_a_count (v : pyval) : Prop := ∀ n, is_integer v n → n < 0.

(** Zero, negative or not a number. *)
Definition not_a_delay (v : pyval) : Prop := ∀ q, is_number v q → (q <= 0)%Q.

(** The variables the handler closes over. *)
Record params : Type := Params {
  retry_attempts : Z;
  retry_delay_base_ms : Q;
  error_message_text : string;
  log_sensitive_info : bool;
  recall_retry_attempts : Z;
  recall_retry_delay_base_ms : Q
}.

(** [current_config = DEFAULT_CONFIG.copy(); if config: current_config.update(config)] *)
Definition merge_config (config : option (gmap string pyval)) : gmap string pyval :=
  match config with
  | Some c => if bool_decide (c = ∅) then DEFAULT_CONFIG else c ∪ DEFAULT_CONFIG
  | None => DEFAULT_CONFIG
  end.

(** The six reads [current_config['...']] that follow the validation. *)
Definition read_params (current_config : gmap string pyval) : params :=
  {| retry_attempts := int_value (dict_get current_config "retry_attempts");
     retry_delay_base_ms := num_value (dict_get current_config "retry_delay_base");
     error_message_text := str_value (dict_get current_config "error_message");
     log_sensitive_info := bool_value (dict_get current_config "log_sensitive_info");
     recall_retry_attempts := int_value (dict_get current_config "recall_retry_attempts");
     recall_retry_delay_base_ms :=
       num_value (dict_get current_config "recall_retry_delay_base") |}.

(** ** The world of one invocation *)

(** The event object; the handler reads only [event.channel_id]. *)
Record Event : Type := { channel_id : string }.

(** What [send_message] returns: whether the object is truthy, and its
    [message_id] attribute when it has one. *)
Record response : Type := Response { truthy : bool; message_id : option string }.

(** The calls the handler makes, in the order it makes them.  Delays are the
    arguments of [asyncio.sleep], in seconds. *)
Inductive call : Type :=
  | call_next_action (event : Event)
  | call_sleep (delay : Q)
  | call_recall_message (channel_id message_id : string)
  | call_send_message (channel_id text : string)
  | call_recall_and_clear_message_id (channel_id message_id : string).

Definition is_next_action (c : call) : bool :=
  match c with call_next_action _ => true | _ => false end.
Definition is_sleep (c : call) : bool :=
  match c with call_sleep _ => true | _ => false end.
Definition is_recall_message (c : call) : bool :=
  match c with call_recall_message _ _ => true | _ => false end.
Definition is_send_message (c : call) : bool :=
  match c with call_send_message _ _ => true | _ => false end.
Definition is_recall_and_clear (c : call) : bool :=
  match c with call_recall_and_clear_message_id _ _ => true | _ => false end.

Fixpoint count (p : call → bool) (t : list call) : nat :=
  match t with
  | [] => O
  | c :: t' => if p c then S (count p t') else count p t'
  end.

(** The delays of the [asyncio.sleep] calls of a trace, in order. *)
Fixpoint sleeps (t : list call) : list Q :=
  match t with
  | [] => []
  | call_sleep d :: t' => d :: sleeps t'
  | _ :: t' => sleeps t'
  end.

Record world : Type := World {
  last_sent_message_ids : gmap string string;
  trace : list call
}.

(** A fresh invocation starting from a given registry. *)
Definition start (registry : gmap string string) : world :=
  {| last_sent_message_ids := registry; trace := [] |}.

(** The environment answers the awaited calls: the n-th call of each kind
    (counted from 0) gets the n-th answer.  [asyncio.sleep] either completes
    or is interrupted by a signal.  [env_other_tasks i] is what the other
    tasks do to the registry while this one is suspended at its i-th call. *)
Record Env : Type := {
  env_next_action : nat → result exn (option string);
  env_sleep : nat → option signal;
  env_recall_message : nat → result exn unit;
  env_send_message : nat → result exn response;
  env_other_tasks : nat → gmap string string → gmap string string
}.

(** Suspension outside [_message_ids_lock]: the call is recorded and the
    other tasks run. *)
Definition suspend (env : Env) (c : call) (w : world) : world :=
  {| last_sent_message_ids :=
       env_other_tasks env (length (trace w)) (last_sent_message_ids w);
     trace := trace w ++ [c] |}.

(** Suspension while holding [_message_ids_lock]: nobody else reaches the
    registry. *)
Definition suspend_locked (c : call) (w : world) : world :=
  {| last_sent_message_ids := last_sent_message_ids w;
     trace := trace w ++ [c] |}.

Definition sleep_result (answer : option signal) : result exn unit :=
  match answer with
  | None => Returned tt
  | Some s => Raised (Exn (BaseSignal s) EmptyString)
  end.

Definition await_next_action (env : Env) (event : Event) (w : world)
  : result exn (option string) * world :=
  (env_next_action env (count is_next_action (trace w)),
   suspend env (call_next_action event) w).

Definition await_sleep (env : Env) (delay : Q) (w : world)
  : result exn unit * world :=
  (sleep_result (env_sleep env (count is_sleep (trace w))),
   suspend env (call_sleep delay) w).

Definition await_sleep_locked (env : Env) (delay : Q) (w : world)
  : result exn unit * world :=
  (sleep_result (env_sleep env (count is_sleep (trace w))),
   suspend_locked (call_sleep delay) w).

Definition await_recall_message (env : Env) (channel_id message_id : string) (w : world)
  : result exn unit * world :=
  (env_recall_message env (count is_recall_message (trace w)),
   suspend_locked (call_recall_message channel_id message_id) w).

Definition await_send_message (env : Env) (channel_id text : string) (w : world)
  : result exn response * world :=
  (env_send_message env (count is_send_message (trace w)),
   suspend env (call_send_message channel_id text) w).

(** [last_sent_message_ids[channel_id] = message_id_str] *)
Definition registry_set (channel_id message_id_str : string) (w : world) : world :=
  {| last_sent_message_ids := <[channel_id := message_id_str]> (last_sent_message_ids w);
     trace := trace w |}.

(** [last_sent_message_ids.pop(channel_id, None)] *)
Definition registry_pop (channel_id : string) (w : world) : world :=
  {| last_sent_message_ids := delete channel_id (last_sent_message_ids w);
     trace := trace w |}.

(** [base * (2 ** attempts) / 1000]: milliseconds to seconds. *)
Definition backoff_delay (base_ms : Q) (attempts : nat) : Q :=
  (base_ms * inject_Z (2 ^ Z.of_nat attempts) / 1000)%Q.

(** ** The recall routine [_recall_and_clear_message_id] *)

(** [for attempts in range(recall_retry_attempts + 1)], from the iteration
    [attempts] on, with [todo] iterations left. *)
Fixpoint recall_loop (env : Env) (channel_id message_id_str : string)
    (recall_retry_attempts : Z) (recall_retry_delay_base_ms : Q)
    (todo attempts : nat) (w : world) : result exn unit * world :=
  match todo with
  | O => (Returned tt, w)
  | S todo' =>
      let '(r, w1) := await_recall_message env channel_id message_id_str w in
      match r with
      | Returned _ => (Returned tt, registry_pop channel_id w1)
      | Raised recall_e =>
          if isinstance_Exception recall_e then
            if Z.of_nat attempts <? recall_retry_attempts then
              let delay := backoff_delay recall_retry_delay_base_ms attempts in
              let '(s, w2) := await_sleep_locked env delay w1 in
              match s with
              | Returned _ =>
                  recall_loop env channel_id message_id_str recall_retry_attempts
                    recall_retry_delay_base_ms todo' (S attempts) w2
              | Raised e => (Raised e, w2)
              end
            else
              recall_loop env channel_id message_id_str recall_retry_attempts
                recall_retry_delay_base_ms todo' (S attempts) w1
          else (Raised recall_e, w1)
      end
  end.

Definition _recall_and_clear_message_id (env : Env) (channel_id message_id : string)
    (log_sensitive_info : bool) (recall_retry_attempts : Z)
    (recall_retry_delay_base_ms : Q) (w : world) : result exn unit * world :=
  let message_id_str := message_id in
  let w := suspend_locked (call_recall_and_clear_message_id channel_id message_id) w in
  if bool_decide (last_sent_message_ids w !! channel_id = Some message_id_str) then
    recall_loop env channel_id message_id_str recall_retry_attempts
      recall_retry_delay_base_ms (Z.to_nat (recall_retry_attempts + 1)) 0 w
  else (Returned tt, w).

(** ** The handler [network_error_handler] *)

(** [if message_id_raw is not None: last_sent_message_ids[channel_id] = str(message_id_raw)] *)
Definition record_message_id (channel_id : string) (message_id_raw : option string)
    (w : world) : world :=
  match message_id_raw with
  | Some message_id_str => registry_set channel_id message_id_str w
  | None => w
  end.

(** The outcome of the retry loop: the handler is over (it returned or
    raised), or the [for] ran out. *)
Inductive loop_exit : Type :=
  | Finished (out : result exn unit)
  | Exhausted.

(** [for attempts in range(retry_attempts)], from the iteration [attempts]
    on, with [todo] iterations left. *)
Fixpoint retry_loop (p : params) (env : Env) (event : Event)
    (todo attempts : nat) (w : world) : loop_exit * world :=
  match todo with
  | O => (Exhausted, w)
  | S todo' =>
      let delay := backoff_delay (retry_delay_base_ms p) attempts in
      let '(s, w1) := await_sleep env delay w in
      match s with
      | Raised e => (Finished (Raised e), w1)
      | Returned _ =>
          let '(r, w2) := await_next_action env event w1 in
          match r with
          | Returned message_id_raw =>
              (Finished (Returned tt), record_message_id (channel_id event) message_id_raw w2)
          | Raised retry_error =>
              if is_signal retry_error then (Finished (Raised retry_error), w2)
              else if is_network_error retry_error then
                retry_loop p env event todo' (S attempts) w2
              else (Finished (Raised retry_error), w2)
          end
      end
  end.

(** The notice: [send_message(channel_id, error_message_text)] inside
    [try ... except Exception]. *)
Definition send_error_notice (p : params) (env : Env) (channel_id : string) (w : world)
  : result exn unit * world :=
  let '(r, w1) := await_send_message env channel_id (error_message_text p) w in
  match r with
  | Returned error_response =>
      match (if truthy error_response then message_id error_response else None) with
      | Some error_message_id_str =>
          (Returned tt, registry_set channel_id error_message_id_str w1)
      | None => (Returned tt, w1)
      end
  | Raised send_error_e =>
      if isinstance_Exception send_error_e then (Returned tt, w1)
      else (Raised send_error_e, w1)
  end.

(** What follows the exhausted [for]: recall of the message snapshot, then
    the notice. *)
Definition recover (p : params) (env : Env) (channel_id : string)
    (last_message_id_in_channel : option string) (w : world) : result exn unit * world :=
  let '(r, w1) :=
    match last_message_id_in_channel with
    | Some m =>
        (* [if last_message_id_in_channel:] an empty string is falsy *)
        if String.eqb m EmptyString then (Returned tt, w)
        else
          _recall_and_clear_message_id env channel_id m (log_sensitive_info p)
            (recall_retry_attempts p) (recall_retry_delay_base_ms p) w
    | None => (Returned tt, w)
    end in
  match r with
  | Raised e => (Raised e, w1)
  | Returned _ => send_error_notice p env channel_id w1
  end.

(** The third clause, [except Exception as e], of the outer [try] can never
    fire: the second one catches every [Exception], and an exception raised
    inside an [except] body is not offered to its sibling clauses. *)
Definition network_error_handler (p : params) (env : Env) (event : Event) (w : world)
  : result exn unit * world :=
  let channel_id := channel_id event in
  let last_message_id_in_channel := last_sent_message_ids w !! channel_id in
  let '(r, w1) := await_next_action env event w in
  match r with
  | Returned message_id_raw => (Returned tt, record_message_id channel_id message_id_raw w1)
  | Raised initial_error =>
      if is_signal initial_error then (Raised initial_error, w1)
      else if is_network_error initial_error then
        match retry_loop p env event (Z.to_nat (retry_attempts p)) 0 w1 with
        | (Finished out, w2) => (out, w2)
        | (Exhausted, w2) => recover p env channel_id last_message_id_in_channel w2
        end
      else (Raised initial_error, w1)
  end.

(** ** Construction [create_network_error_handler] *)

Definition create_network_error_handler (env : Env) (config : option (gmap string pyval))
  : result ValueError (Event → world → result exn unit * world) :=
  let current_config := merge_config config in
  match validate_config current_config with
  | Raised e => Raised e
  | Returned _ => Returned (network_error_handler (read_params current_config) env)
  end.

(** ** Vocabulary of the statements *)

(** An answer of the inner action that the handler takes as a transient
    failure: an [Exception] that [is_network_error] accepts. *)
Definition fails_transiently (answer : result exn (option string)) : Prop :=
  ∃ e, answer = Raised e ∧ is_signal e = false ∧ is_network_error e = true.

(** The other tasks never change the entry of channel [c]. *)
Definition others_keep (c : string) (env : Env) : Prop :=
  ∀ i r, env_other_tasks env i r !! c = r !! c.

(** The other tasks never change the registry. *)
Definition others_idle (env : Env) : Prop :=
  ∀ i r, env_other_tasks env i r = r.

(** [if last_message_id_in_channel:] holds for a snapshot that is neither
    [None] nor the empty string. *)
Definition nonempty_message_id (snapshot : option string) : bool :=
  match snapshot with
  | Some m => negb (String.eqb m EmptyString)
  | None => false
  end.

(** No signal reaches the recall routine: [recall_message] fails only with
    instances of [Exception], and no sleep is interrupted. *)
Definition recall_undisturbed (env : Env) : Prop :=
  (∀ i e, env_recall_message env i = Raised e → is_signal e = false)
  ∧ (∀ i, env_sleep env i = None).

(** [send_message] fails only with instances of [Exception]. *)
Definition send_undisturbed (env : Env) : Prop :=
  ∀ i e, env_send_message env i = Raised e → is_signal e = false.

(** The calls of [k] retries starting at retry index [a]: each retry is a
    sleep followed by the inner action. *)
Fixpoint retry_trace (event : Event) (base_ms : Q) (a k : nat) : list call :=
  match k with
  | O => []
  | S k' =>
      call_sleep (backoff_delay base_ms a) :: call_next_action event
      :: retry_trace event base_ms (S a) k'
  end.

(** The calls of [j] failed recall calls starting at index [a], each one
    followed by its backoff sleep. *)
Fixpoint recall_trace (c m : string) (base_ms : Q) (a j : nat) : list call :=
  match j with
  | O => []
  | S j' =>
      call_recall_message c m :: call_sleep (backoff_delay base_ms a)
      :: recall_trace c m base_ms (S a) j'
  end.

(** The answer of [recall_message] is an error the routine absorbs. *)
Definition recall_fails (answer : result exn unit) : Prop :=
  ∃ e, answer = Raised e ∧ isinstance_Exception e = true.

(** ** The sample inner action [my_actual_send_message_action] *)

(** The event object as the sample action sees it: the channel id and, when
    the object has the attribute, [test_fail_count].  The action mutates the
    attribute, and the handler passes the same object at every retry. *)
Record MockEvent : Type := {
  mock_channel_id : string;
  test_fail_count : option Z
}.

(** The text of the [NetworkError] the test hook raises:
    [f"模拟网络连接中断进行测试 (剩余 {event.test_fail_count} 次)"]. *)
Definition hook_message (remaining : Z) : string :=
  "模拟网络连接中断进行测试 (剩余 " +:+ pretty remaining +:+ " 次)".

(** The part after the test hook: the progress message is sent and the id
    of the response, if it is truthy and has one, is returned. *)
Definition send_progress_message
    (send_message : string → string → result exn response) (event : MockEvent)
  : result exn (option string) * MockEvent :=
  match send_message (mock_channel_id event) "操作进行中..." with
  | Returned response =>
      (Returned (if truthy response then message_id response else None), event)
  | Raised e => (Raised e, event)
  end.

(** One call of the action.  [send_message] is the collaborator, asked at
    most once; the result is what the call returns or raises, and the event
    object after the call. *)
Definition my_actual_send_message_action
    (send_message : string → string → result exn response) (event : MockEvent)
  : result exn (option string) * MockEvent :=
  match test_fail_count event with
  | Some n =>
      (* [event.test_fail_count -= 1] *)
      let event := {| mock_channel_id := mock_channel_id event;
                      test_fail_count := Some (n - 1) |} in
      if 0 <=? n - 1 then (Raised (Exn NetworkError (hook_message (n - 1))), event)
      else send_progress_message send_message event
  | None => send_progress_message send_message event
  end.

(** The event object after [i] calls of the action; [send_message i] answers
    the call number [i]. *)
Fixpoint event_after_calls (send_message : nat → string → string → result exn response)
    (i : nat) (event : MockEvent) : MockEvent :=
  match i with
  | O => event
  | S i' =>
      snd (my_actual_send_message_action (send_message i')
             (event_after_calls send_message i' event))
  end.

(** What the call number [i] of the action on one and the same event object
    returns or raises. *)
Definition nth_call (send_message : nat → string → string → result exn response)
    (event : MockEvent) (i : nat) : result exn (option string) :=
  fst (my_actual_send_message_action (send_message i)
         (event_after_calls send_message i event)).

(** The handler sees of its inner action only what each call returns or
    raises: the environment in which the inner action is the sample action,
    called on one event object. *)
Definition with_sample_action (env : Env)
    (send_message : nat → string → string → result exn response) (event : MockEvent) : Env :=
  {| env_next_action := nth_call send_message event;
     env_sleep := env_sleep env;
     env_recall_message := env_recall_message env;
     env_send_message := env_send_message env;
     env_other_tasks := env_other_tasks env |}.

(** The event as the handler reads it. *)
Definition handler_event (event : MockEvent) : Event :=
  {| channel_id := mock_channel_id event |}.

(** ** More vocabulary *)

(** The time slept in a trace, in seconds. *)
Definition total_sleep (t : list call) : Q :=
  fold_right Qplus 0%Q (sleeps t).

(** The keys [validate_config] and the handler read. *)
Definition known_keys : list string :=
  [ "retry_attempts"; "retry_delay_base"; "error_message"; "log_sensitive_info";
    "recall_retry_attempts"; "recall_retry_delay_base" ]%string.

(** The answer to the notice leaves no message id to record: the send
    failed with an [Exception], or its result is falsy or has no
    [message_id]. *)
Definition notice_without_id (answer : result exn response) : Prop :=
  match answer with
  | Returned error_response =>
      (if truthy error_response then message_id error_response else None) = None
  | Raised e => isinstance_Exception e = true
  end.

(** The classifier without its test for "network request". *)
Definition transient_without_network_request (error : exn) : Prop :=
  exn_class error = NetworkError
  ∨ (∃ word, word ∈ network_words ∧ Text.occurs_ignoring_case word (exn_str error))
  ∨ (exn_class error = TypeError
     ∧ Text.occurs_ignoring_case "fetch" (exn_str error)).

(** What the other tasks make of the registry over [n] suspensions in a
    row, the first at call index [i]. *)
Fixpoint others_run (env : Env) (i n : nat) (r : gmap string string)
  : gmap string string :=
  match n with
  | O => r
  | S n' => others_run env (S i) n' (env_other_tasks env i r)
  end.

(** * Facts *)

Section TextFacts.
Import Text.

Lemma app_empty s : EmptyString +:+ s = s.
Proof. reflexivity. Qed.

Lemma app_String c a b : String c a +:+ b = String c (a +:+ b).
Proof. reflexivity. Qed.

Lemma startswith_app needle s :
  startswith needle s = true ↔ ∃ post, s = needle +:+ post.
Proof.
  revert s. induction needle as [|a needle IH]; intros s; simpl.
  - split; [intros _; by exists s | done].
  - destruct s as [|b s].
    + split; [done | intros [post Hp]; discriminate].
    + destruct (Ascii.eqb_spec a b) as [->|Hne].
      * rewrite IH. split; intros [post Hp]; exists post.
        -- by rewrite Hp.
        -- rewrite app_String in Hp. by injection Hp.
      * split; [done |].
        intros [post Hp]. rewrite app_String in Hp. injection Hp. congruence.
Qed.

Lemma contains_app needle s :
  contains needle s = true ↔ ∃ pre post, s = pre +:+ needle +:+ post.
Proof.
  induction s as [|c s IH]; simpl.
  - rewrite startswith_app. split.
    + intros [post Hp]. by exists EmptyString, post.
    + intros (pre & post & Hp). destruct pre; [by exists post | discriminate].
  - rewrite orb_true_iff, IH, startswith_app. split.
    + intros [[post Hp] | (pre & post & Hp)].
      * by exists EmptyString, post.
      * exists (String c pre), post. by rewrite app_String, Hp.
    + intros (pre & post & Hp). destruct pre as [|c' pre].
      * left. by exists post.
      * right. exists pre, post. rewrite app_String in Hp. by injection Hp.
Qed.

Lemma lower_app a b : lower (a +:+ b) = lower a +:+ lower b.
Proof.
  induction a as [|c a IH]; [done |].
  rewrite app_String. simpl. by rewrite IH, app_String.
Qed.

Lemma lower_split s : ∀ a b,
  lower s = a +:+ b → ∃ a' b', s = a' +:+ b' ∧ lower a' = a ∧ lower b' = b.
Proof.
  induction s as [|c s IH]; intros a b H; simpl in H.
  - destruct a; [|discriminate]. rewrite app_empty in H.
    exists EmptyString, EmptyString. by rewrite <- H.
  - destruct a as [|x a].
    + rewrite app_empty in H. exists EmptyString, (String c s). by rewrite <- H.
    + rewrite app_String in H. injection H as Hx Hrest.
      destruct (IH _ _ Hrest) as (a' & b' & -> & Ha & Hb).
      exists (String c a'), b'. simpl. by rewrite Hx, Ha.
Qed.

(** [word in s.lower()] for a lower-case word is a case-insensitive
    occurrence of the word in [s]. *)
Lemma contains_lower word s :
  lower word = word →
  contains word (lower s) = true ↔ occurs_ignoring_case word s.
Proof.
  intros Hw. rewrite contains_app. unfold occurs_ignoring_case. split.
  - intros (pre & post & H).
    destruct (lower_split _ _ _ H) as (pre' & rest & -> & _ & Hrest).
    destruct (lower_split _ _ _ Hrest) as (mid & post' & -> & Hmid & _).
    exists pre', mid, post'. by rewrite Hw.
  - intros (pre & mid & post & -> & Hmid).
    exists (lower pre), (lower post).
    by rewrite !lower_app, Hmid, Hw.
Qed.

End TextFacts.

(** ** The classifier *)

Section ClassifierFacts.
Import Text.

Lemma network_words_check s :
  contains "network" (lower s) || contains "timeout" (lower s)
  || contains "connection reset" (lower s)
  || contains "connection refused" (lower s)
  || contains "host unreachable" (lower s)
  || contains "name or service not known" (lower s) = true
  ↔ ∃ word, word ∈ network_words ∧ occurs_ignoring_case word s.
Proof.
  rewrite !orb_true_iff, !contains_lower by reflexivity.
  unfold network_words. split.
  - intros [[[[[H|H]|H]|H]|H]|H]; eexists; (split; [|exact H]);
      repeat first [apply list_elem_of_here | apply list_elem_of_further].
  - intros (word & Hin & H).
    repeat (apply elem_of_cons in Hin as [->|Hin]; [tauto|]).
    by apply elem_of_nil in Hin.
Qed.

Lemma fetch_words_check s :
  contains "fetch" (lower s) || contains "network request" (lower s) = true
  ↔ occurs_ignoring_case "fetch" s ∨ occurs_ignoring_case "network request" s.
Proof. by rewrite orb_true_iff, !contains_lower by reflexivity. Qed.

Lemma is_network_error_spec error :
  is_network_error error = true ↔ isTransient_spec error.
Proof.
  unfold is_network_error, isTransient_spec.
  unfold isinstance_NetworkError, isinstance_TypeError.
  pose proof (network_words_check (exn_str error)) as Hw.
  pose proof (fetch_words_check (exn_str error)) as Hf.
  destruct (exn_class error) eqn:Hc.
  all: match goal with
       | |- context [if ?b then true else _] =>
           destruct b eqn:Hb; [split; [intros _ | done]; right; left; by apply Hw |]
       | _ => idtac
       end.
  all: try (split; [discriminate |]; intros [? | [? | [? _]]];
            [discriminate | | discriminate];
            exfalso; apply Hw in H; congruence).
  - split; [intros _; by left | done].
  - simpl. match goal with
           | |- context [if ?b then true else false] => destruct b eqn:Hb2
           end.
    + split; [intros _ | done]. right; right. split; [done | by apply Hf].
    + split; [discriminate |]. intros [? | [? | [_ ?]]]; [discriminate | |].
      * apply Hw in H. congruence.
      * apply Hf in H. congruence.
Qed.

End ClassifierFacts.


(** ** Configuration *)

Section ConfigFacts.

Lemma count_check v :
  negb (isinstance_int v) || (int_value v <? 0) = true ↔ not_a_count v.
Proof.
  unfold not_a_count, is_integer. rewrite orb_true_iff, Z.ltb_lt. split.
  - intros [Hty | Hneg] n [-> | (b & -> & ->)]; simpl in *; done.
  - intros H. destruct v; simpl; try (by left).
    + right. apply H. right. by exists b.
    + right. apply H. by left.
Qed.

Lemma delay_check v :
  negb (isinstance_int_float v) || Qle_bool (num_value v) 0 = true ↔ not_a_delay v.
Proof.
  unfold not_a_delay, is_number, is_integer.
  rewrite orb_true_iff, Qle_bool_iff. split.
  - intros [Hty | Hle] q [-> | (n & [-> | (b & -> & ->)] & ->)]; simpl in *; done.
  - intros H. destruct v; simpl; try (by left); right; apply H.
    + right. exists (Z.b2z b). split; [right; by exists b | done].
    + right. exists z. split; [by left | done].
    + by left.
Qed.

Lemma str_check v : negb (isinstance_str v) = true ↔ ∀ s, v ≠ PyStr s.
Proof. destruct v; simpl; split; try done; intros H; by destruct (H s). Qed.

Lemma bool_check v : negb (isinstance_bool v) = true ↔ ∀ b, v ≠ PyBool b.
Proof. destruct v; simpl; split; try done; intros H; by destruct (H b). Qed.

(** [validate_config] raises exactly when one of the six constraints is
    violated. *)
Lemma validate_config_raises config :
  (∃ e, validate_config config = Raised e)
  ↔ not_a_count (dict_get config "retry_attempts")
    ∨ not_a_delay (dict_get config "retry_delay_base")
    ∨ (∀ s, dict_get config "error_message" ≠ PyStr s)
    ∨ (∀ b, dict_get config "log_sensitive_info" ≠ PyBool b)
    ∨ not_a_count (dict_get config "recall_retry_attempts")
    ∨ not_a_delay (dict_get config "recall_retry_delay_base").
Proof.
  rewrite <- !count_check, <- !delay_check, <- str_check, <- bool_check.
  unfold validate_config.
  repeat match goal with
         | |- context [if ?b then Raised _ else _] =>
             destruct b; [split; [tauto | intros _; eauto] |]
         end.
  split; [intros [e He]; discriminate | intuition discriminate].
Qed.

Lemma validate_config_total config :
  validate_config config = Returned tt ∨ ∃ e, validate_config config = Raised e.
Proof. destruct (validate_config config) as [[]|e]; eauto. Qed.

Lemma merge_config_union c : merge_config (Some c) = c ∪ DEFAULT_CONFIG.
Proof.
  unfold merge_config. case_bool_decide as H; [|done].
  by rewrite H, (left_id_L ∅ (∪)).
Qed.

Lemma dict_get_insert_eq (c : gmap string pyval) k v :
  dict_get (<[k := v]> c ∪ DEFAULT_CONFIG) k = v.
Proof.
  unfold dict_get.
  by rewrite (lookup_union_Some_l _ _ _ v) by apply lookup_insert_eq.
Qed.

Lemma dict_get_insert_ne (c : gmap string pyval) k k' v :
  k ≠ k' →
  dict_get (<[k := v]> c ∪ DEFAULT_CONFIG) k' = dict_get (c ∪ DEFAULT_CONFIG) k'.
Proof.
  intros Hne. unfold dict_get.
  by rewrite !lookup_union, lookup_insert_ne.
Qed.

End ConfigFacts.


(** C9: Python booleans pass the [isinstance(..., int)] checks of
    [validate_config]; overriding both retry counts of an accepted
    configuration with booleans gives an accepted configuration, and the
    handler built from it retries [True] as 1 time and [False] as 0 times. *)
Theorem boolean_retry_counts_accepted (env : Env) (config : gmap string pyval)
    (b1 b2 : bool) :
  validate_config (merge_config (Some config)) = Returned tt →
  let config' :=
    <["retry_attempts" := PyBool b1]> (<["recall_retry_attempts" := PyBool b2]> config) in
  validate_config (merge_config (Some config')) = Returned tt
  ∧ ∃ p, create_network_error_handler env (Some config')
         = Returned (network_error_handler p env)
         ∧ retry_attempts p = Z.b2z b1
         ∧ recall_retry_attempts p = Z.b2z b2.
Proof.
  intros Hok config'.
  assert (Hv : validate_config (merge_config (Some config')) = Returned tt).
  { destruct (validate_config_total (merge_config (Some config'))) as [H|H]; [done|].
    exfalso. apply validate_config_raises in H.
    assert (Hold : ¬ ∃ e, validate_config (merge_config (Some config)) = Raised e)
      by (rewrite Hok; intros [e He]; discriminate).
    apply Hold, validate_config_raises.
    rewrite merge_config_union in *. unfold config' in H.
    rewrite dict_get_insert_eq in H.
    rewrite !(dict_get_insert_ne _ "retry_attempts") in H by done.
    rewrite dict_get_insert_eq in H.
    rewrite !(dict_get_insert_ne _ "recall_retry_attempts") in H by done.
    destruct H as [H | [H | [H | [H | [H | H]]]]]; try tauto.
    - exfalso. specialize (H (Z.b2z b1)). 
      assert (Z.b2z b1 < 0) by (apply H; right; by exists b1).
      destruct b1; simpl in *; lia.
    - exfalso. specialize (H (Z.b2z b2)).
      assert (Z.b2z b2 < 0) by (apply H; right; by exists b2).
      destruct b2; simpl in *; lia. }
  split; [done |].
  exists (read_params (merge_config (Some config'))).
  unfold create_network_error_handler. rewrite Hv. split; [done |].
  rewrite merge_config_union. unfold config', read_params. simpl.
  rewrite dict_get_insert_eq.
  rewrite (dict_get_insert_ne _ "retry_attempts") by done.
  by rewrite dict_get_insert_eq.
Qed.

Lemma boolean_retry_counts_accepted_witness :
  validate_config
    (merge_config (Some (<["retry_attempts" := PyBool true]>
                         (<["recall_retry_attempts" := PyBool false]>
                          (<["retry_delay_base" := PyFloat 0.5]> ∅)))))
  = Returned tt.
Proof.
  refine (proj1 (boolean_retry_counts_accepted
                   {| env_next_action := λ _, Returned None;
                      env_sleep := λ _, None;
                      env_recall_message := λ _, Returned tt;
                      env_send_message := λ _, Returned (Response false None);
                      env_other_tasks := λ _ r, r |}
                   (<["retry_delay_base" := PyFloat 0.5]> ∅) true false _)).
  vm_compute. reflexivity.
Defined.

(** ** Traces and suspensions *)

Section TraceFacts.

Lemma count_app p t1 t2 : count p (t1 ++ t2) = (count p t1 + count p t2)%nat.
Proof.
  induction t1 as [|c t1 IH]; simpl; [done |].
  destruct (p c); simpl; by rewrite IH.
Qed.

Lemma sleeps_app t1 t2 : sleeps (t1 ++ t2) = sleeps t1 ++ sleeps t2.
Proof.
  induction t1 as [|c t1 IH]; simpl; [done |].
  destruct c; simpl; by rewrite IH.
Qed.

Lemma retry_trace_snoc event base k : ∀ a,
  retry_trace event base a (S k)
  = retry_trace event base a k
    ++ [call_sleep (backoff_delay base (a + k)); call_next_action event].
Proof.
  induction k as [|k IH]; intros a.
  - simpl. by rewrite Nat.add_0_r.
  - change (retry_trace event base a (S (S k)))
      with (call_sleep (backoff_delay base a) :: call_next_action event
            :: retry_trace event base (S a) (S k)).
    rewrite IH. simpl. by rewrite Nat.add_succ_r.
Qed.

Lemma count_retry_trace event base k : ∀ a,
  count is_next_action (retry_trace event base a k) = k
  ∧ count is_sleep (retry_trace event base a k) = k
  ∧ count is_recall_message (retry_trace event base a k) = O
  ∧ count is_send_message (retry_trace event base a k) = O
  ∧ count is_recall_and_clear (retry_trace event base a k) = O.
Proof.
  induction k as [|k IH]; intros a; simpl; [done |].
  destruct (IH (S a)) as (-> & -> & -> & -> & ->). done.
Qed.

Lemma sleeps_retry_trace event base k : ∀ a,
  sleeps (retry_trace event base a k) = map (backoff_delay base) (seq a k).
Proof. induction k as [|k IH]; intros a; simpl; [done | by rewrite IH]. Qed.

Lemma is_signal_not_Exception e : is_signal e = negb (isinstance_Exception e).
Proof. unfold is_signal, isinstance_Exception. by destruct (exn_class e). Qed.

End TraceFacts.

(** ** The retry loop *)

Section RetryFacts.
Variables (p : params) (env : Env) (event : Event).

(** One iteration of the [for]. *)
Lemma retry_loop_S todo a w :
  retry_loop p env event (S todo) a w =
    let w1 := suspend env (call_sleep (backoff_delay (retry_delay_base_ms p) a)) w in
    let w2 := suspend env (call_next_action event) w1 in
    match env_sleep env (count is_sleep (trace w)) with
    | Some s => (Finished (Raised (Exn (BaseSignal s) EmptyString)), w1)
    | None =>
        match env_next_action env (count is_next_action (trace w)) with
        | Returned message_id_raw =>
            (Finished (Returned tt),
             record_message_id (channel_id event) message_id_raw w2)
        | Raised retry_error =>
            if is_signal retry_error then (Finished (Raised retry_error), w2)
            else if is_network_error retry_error then
              retry_loop p env event todo (S a) w2
            else (Finished (Raised retry_error), w2)
        end
    end.
Proof.
  simpl. destruct (env_sleep env (count is_sleep (trace w))); simpl; [done |].
  rewrite count_app. simpl. by rewrite Nat.add_0_r.
Qed.

(** [k] transient failures in a row: the loop is [k] iterations further,
    and the trace holds [k] more retries. *)
Lemma retry_loop_failures k : ∀ todo a w,
  (∀ i, (i < k)%nat → env_sleep env (count is_sleep (trace w) + i) = None) →
  (∀ i, (i < k)%nat →
     fails_transiently (env_next_action env (count is_next_action (trace w) + i))) →
  ∃ w', retry_loop p env event (k + todo) a w = retry_loop p env event todo (a + k) w'
        ∧ trace w' = trace w ++ retry_trace event (retry_delay_base_ms p) a k
        ∧ (∀ c, others_keep c env → last_sent_message_ids w' !! c = last_sent_message_ids w !! c)
        ∧ (others_idle env → last_sent_message_ids w' = last_sent_message_ids w).
Proof.
  induction k as [|k IH]; intros todo a w Hs Hn.
  - exists w. simpl. by rewrite Nat.add_0_r, app_nil_r.
  - change (S k + todo)%nat with (S (k + todo)). rewrite retry_loop_S. cbv zeta.
    pose proof (Hs O ltac:(lia)) as Hs0. rewrite Nat.add_0_r in Hs0. rewrite Hs0.
    destruct (Hn O ltac:(lia)) as (e & He & Hsig & Hnet).
    rewrite Nat.add_0_r in He. rewrite He, Hsig, Hnet.
    set (w2 := suspend env (call_next_action event) (suspend env _ w)).
    assert (Ht : trace w2 = trace w ++ [call_sleep (backoff_delay (retry_delay_base_ms p) a);
                                        call_next_action event]).
    { unfold w2. simpl. by rewrite <- app_assoc. }
    destruct (IH todo (S a) w2) as (w' & Hloop & Htr & Hkeep & Hidle).
    + intros i Hi. rewrite Ht, count_app. simpl.
      replace (count is_sleep (trace w) + 1 + i)%nat
        with (count is_sleep (trace w) + S i)%nat by lia.
      apply Hs. lia.
    + intros i Hi. rewrite Ht, count_app. simpl.
      replace (count is_next_action (trace w) + 1 + i)%nat
        with (count is_next_action (trace w) + S i)%nat by lia.
      apply Hn. lia.
    + exists w'. split; [|split; [|split]].
      * rewrite Hloop. f_equal. lia.
      * rewrite Htr, Ht. simpl. by rewrite <- app_assoc.
      * intros c Hc. rewrite (Hkeep c Hc). unfold w2. simpl. by rewrite !Hc.
      * intros Hi. rewrite (Hidle Hi). unfold w2. simpl. by rewrite !Hi.
Qed.

End RetryFacts.

(** ** The recall routine *)

Section RecallFacts.
Variables (env : Env) (c m : string) (R : Z) (base : Q).

(** One iteration of the [for]. *)
Lemma recall_loop_S todo a w :
  recall_loop env c m R base (S todo) a w =
    let w1 := suspend_locked (call_recall_message c m) w in
    let w2 := suspend_locked (call_sleep (backoff_delay base a)) w1 in
    match env_recall_message env (count is_recall_message (trace w)) with
    | Returned _ => (Returned tt, registry_pop c w1)
    | Raised recall_e =>
        if isinstance_Exception recall_e then
          if Z.of_nat a <? R then
            match env_sleep env (count is_sleep (trace w)) with
            | None => recall_loop env c m R base todo (S a) w2
            | Some s => (Raised (Exn (BaseSignal s) EmptyString), w2)
            end
          else recall_loop env c m R base todo (S a) w1
        else (Raised recall_e, w1)
    end.
Proof.
  simpl. destruct (env_recall_message env _) as [u|e]; [done |].
  destruct (isinstance_Exception e); [|done].
  destruct (Z.of_nat a <? R); [|done].
  rewrite count_app. simpl. rewrite Nat.add_0_r.
  by destruct (env_sleep env _).
Qed.

(** What any run of the loop adds to the trace and does to the registry,
    and what can leave it. *)
Lemma recall_loop_general todo : ∀ a w r w',
  recall_loop env c m R base todo a w = (r, w') →
  ∃ ext j,
    trace w' = trace w ++ ext
    ∧ count is_next_action ext = O
    ∧ count is_send_message ext = O
    ∧ count is_recall_and_clear ext = O
    ∧ (count is_recall_message ext ≤ todo)%nat
    ∧ sleeps ext = map (backoff_delay base) (seq a j)
    ∧ (j = O ∨ Z.of_nat (a + j) ≤ R)
    ∧ (last_sent_message_ids w' = last_sent_message_ids w
       ∨ last_sent_message_ids w' = delete c (last_sent_message_ids w))
    ∧ (∀ e, r = Raised e →
         is_signal e = true
         ∧ ((∃ i, env_recall_message env i = Raised e)
            ∨ (∃ i s, env_sleep env i = Some s ∧ e = Exn (BaseSignal s) EmptyString))).
Proof.
  induction todo as [|todo IH]; intros a w r w' H.
  - simpl in H. injection H as <- <-. exists [], O.
    rewrite app_nil_r. split_and!; auto. discriminate.
  - rewrite recall_loop_S in H. cbv zeta in H.
    destruct (env_recall_message env (count is_recall_message (trace w))) as [u|e] eqn:Hr.
    { injection H as <- <-. exists [call_recall_message c m], O. simpl.
      split_and!; auto; [lia | discriminate]. }
    destruct (isinstance_Exception e) eqn:Hex.
    2:{ injection H as <- <-. exists [call_recall_message c m], O. simpl.
        split_and!; auto; [lia |]. intros e' [= <-]. split.
        - rewrite is_signal_not_Exception. by rewrite Hex.
        - left. eauto. }
    destruct (Z.of_nat a <? R) eqn:Hlt.
    + apply Z.ltb_lt in Hlt.
      destruct (env_sleep env (count is_sleep (trace w))) as [s|] eqn:Hs.
      * injection H as <- <-.
        exists [call_recall_message c m; call_sleep (backoff_delay base a)], 1%nat.
        simpl. rewrite <- app_assoc. split_and!; auto; [lia | lia |].
        intros e' [= <-]. split; [done |]. right. eauto.
      * apply IH in H as (ext & j & Ht & H1 & H2 & H3 & H4 & H5 & H6 & H7 & H8).
        exists (call_recall_message c m :: call_sleep (backoff_delay base a) :: ext), (S j).
        simpl in *. rewrite Ht, <- !app_assoc. simpl.
        rewrite H1, H2, H3, H5. split_and!; auto; [lia |].
        right. destruct H6 as [-> | H6]; lia.
    + apply IH in H as (ext & j & Ht & H1 & H2 & H3 & H4 & H5 & H6 & H7 & H8).
      apply Z.ltb_ge in Hlt.
      assert (j = O) as -> by (destruct H6 as [-> | H6]; lia).
      exists (call_recall_message c m :: ext), O.
      simpl in *. rewrite Ht, <- !app_assoc. simpl.
      rewrite H1, H2, H3. split_and!; auto. lia.
Qed.

(** A recall call that succeeds ends the loop with the entry removed. *)
Lemma recall_loop_success todo : ∀ a w r w',
  recall_loop env c m R base todo a w = (r, w') →
  (∃ i, (count is_recall_message (trace w) ≤ i < count is_recall_message (trace w'))%nat
        ∧ ∃ u, env_recall_message env i = Returned u) →
  r = Returned tt
  ∧ last_sent_message_ids w' = delete c (last_sent_message_ids w).
Proof.
  induction todo as [|todo IH]; intros a w r w' H (i & Hi & u & Hu).
  - simpl in H. injection H as <- <-. lia.
  - rewrite recall_loop_S in H. cbv zeta in H.
    destruct (env_recall_message env (count is_recall_message (trace w))) as [u'|e] eqn:Hr.
    { by injection H as <- <-. }
    assert (Hne : i ≠ count is_recall_message (trace w)) by (intros ->; congruence).
    assert (Hrec : ∀ w1, 
               count is_recall_message (trace w1) = S (count is_recall_message (trace w)) →
               last_sent_message_ids w1 = last_sent_message_ids w →
               recall_loop env c m R base todo (S a) w1 = (r, w') →
               r = Returned tt
               ∧ last_sent_message_ids w' = delete c (last_sent_message_ids w)).
    { intros w1 Hc Hreg Hl. rewrite <- Hreg. eapply IH; [exact Hl |].
      exists i. split; [lia | eauto]. }
    assert (Hstop : ∀ w1 : world,
               count is_recall_message (trace w1) = S (count is_recall_message (trace w)) →
               w' = w1 → False).
    { intros w1 Hc ->. lia. }
    destruct (isinstance_Exception e).
    2:{ injection H as <- <-. exfalso. eapply Hstop; [|done].
        simpl. rewrite count_app. simpl. lia. }
    destruct (Z.of_nat a <? R).
    + destruct (env_sleep env (count is_sleep (trace w))).
      * injection H as <- <-. exfalso. eapply Hstop; [|done].
        simpl. rewrite !count_app. simpl. lia.
      * eapply Hrec; [| |exact H]; [|done].
        simpl. rewrite !count_app. simpl. lia.
    + eapply Hrec; [| |exact H]; [|done].
      simpl. rewrite !count_app. simpl. lia.
Qed.

(** Every call fails: [j] failed calls with their sleeps, then the last
    call, after which the loop gives up and returns. *)
Lemma recall_loop_failures j : ∀ a w,
  Z.of_nat (a + j) = R →
  (∀ i, (i ≤ j)%nat →
     recall_fails (env_recall_message env (count is_recall_message (trace w) + i))) →
  (∀ i, (i < j)%nat → env_sleep env (count is_sleep (trace w) + i) = None) →
  recall_loop env c m R base (S j) a w
  = (Returned tt,
     {| last_sent_message_ids := last_sent_message_ids w;
        trace := trace w ++ recall_trace c m base a j ++ [call_recall_message c m] |}).
Proof.
  induction j as [|j IH]; intros a w HR Hfail Hsleep.
  - rewrite recall_loop_S. cbv zeta.
    destruct (Hfail O ltac:(lia)) as (e & He & Hex).
    rewrite Nat.add_0_r in He. rewrite He, Hex.
    rewrite (proj2 (Z.ltb_ge _ _)) by lia. done.
  - rewrite recall_loop_S. cbv zeta.
    destruct (Hfail O ltac:(lia)) as (e & He & Hex).
    rewrite Nat.add_0_r in He. rewrite He, Hex.
    rewrite (proj2 (Z.ltb_lt _ _)) by lia.
    pose proof (Hsleep O ltac:(lia)) as Hs0. rewrite Nat.add_0_r in Hs0. rewrite Hs0.
    rewrite IH.
    + f_equal. f_equal. simpl. by rewrite <- !app_assoc.
    + lia.
    + intros i Hi. simpl. rewrite !count_app. simpl.
      replace (count is_recall_message (trace w) + 1 + 0 + i)%nat
        with (count is_recall_message (trace w) + S i)%nat by lia.
      apply Hfail. lia.
    + intros i Hi. simpl. rewrite !count_app. simpl.
      replace (count is_sleep (trace w) + 0 + 1 + i)%nat
        with (count is_sleep (trace w) + S i)%nat by lia.
      apply Hsleep. lia.
Qed.

(** The routine as a whole. *)
Lemma recall_general lsi w r w' :
  _recall_and_clear_message_id env c m lsi R base w = (r, w') →
  ∃ ext j,
    trace w' = trace w ++ call_recall_and_clear_message_id c m :: ext
    ∧ count is_next_action ext = O
    ∧ count is_send_message ext = O
    ∧ count is_recall_and_clear ext = O
    ∧ (count is_recall_message ext ≤ Z.to_nat (R + 1))%nat
    ∧ sleeps ext = map (backoff_delay base) (seq 0 j)
    ∧ (j ≤ Z.to_nat R)%nat
    ∧ (last_sent_message_ids w' = last_sent_message_ids w
       ∨ last_sent_message_ids w' = delete c (last_sent_message_ids w))
    ∧ (∀ e, r = Raised e →
         is_signal e = true
         ∧ ((∃ i, env_recall_message env i = Raised e)
            ∨ (∃ i s, env_sleep env i = Some s ∧ e = Exn (BaseSignal s) EmptyString))).
Proof.
  unfold _recall_and_clear_message_id. cbv zeta. case_bool_decide as Hcur.
  - intros H.
    apply recall_loop_general in H as (ext & j & Ht & H1 & H2 & H3 & H4 & H5 & H6 & H7 & H8).
    exists ext, j. simpl in *. rewrite Ht, <- app_assoc.
    split_and!; auto. destruct H6 as [-> | H6]; lia.
  - intros [= <- <-]. exists [], O. simpl. split_and!; auto; [lia | lia | discriminate].
Qed.

End RecallFacts.

(** ** The handler *)

Section HandlerFacts.
Variables (p : params) (env : Env) (event : Event).

(** What any run of the retry loop adds to the trace, and what can leave
    it. *)
Lemma retry_loop_general todo : ∀ a w ex w',
  retry_loop p env event todo a w = (ex, w') →
  ∃ ext k,
    trace w' = trace w ++ ext
    ∧ (k ≤ todo)%nat
    ∧ sleeps ext = map (backoff_delay (retry_delay_base_ms p)) (seq a k)
    ∧ (count is_next_action ext ≤ k)%nat
    ∧ count is_recall_message ext = O
    ∧ count is_send_message ext = O
    ∧ count is_recall_and_clear ext = O
    ∧ (∀ e, ex = Finished (Raised e) →
         is_signal e = true
         ∨ (is_signal e = false ∧ is_network_error e = false
            ∧ ∃ i, env_next_action env i = Raised e)).
Proof.
  induction todo as [|todo IH]; intros a w ex w' H.
  - simpl in H. injection H as <- <-. exists [], O.
    rewrite app_nil_r. split_and!; auto. discriminate.
  - rewrite retry_loop_S in H. cbv zeta in H.
    set (d := backoff_delay (retry_delay_base_ms p) a) in *.
    destruct (env_sleep env (count is_sleep (trace w))) as [s|].
    { injection H as <- <-. exists [call_sleep d], 1%nat. simpl.
      split_and!; auto; try lia. intros e [= <-]. by left. }
    assert (Hstop : ∀ out,
      (∀ e, out = Raised e →
         is_signal e = true
         ∨ (is_signal e = false ∧ is_network_error e = false
            ∧ ∃ i, env_next_action env i = Raised e)) →
      ∀ w2, trace w2 = trace w ++ [call_sleep d; call_next_action event] →
      (Finished out, w2) = (ex, w') →
      ∃ ext k,
        trace w' = trace w ++ ext ∧ (k ≤ S todo)%nat
        ∧ sleeps ext = map (backoff_delay (retry_delay_base_ms p)) (seq a k)
        ∧ (count is_next_action ext ≤ k)%nat
        ∧ count is_recall_message ext = O ∧ count is_send_message ext = O
        ∧ count is_recall_and_clear ext = O
        ∧ (∀ e, ex = Finished (Raised e) →
             is_signal e = true
             ∨ (is_signal e = false ∧ is_network_error e = false
                ∧ ∃ i, env_next_action env i = Raised e))).
    { intros out Hout w2 Ht [= <- <-].
      exists [call_sleep d; call_next_action event], 1%nat. simpl.
      split_and!; auto; [lia |]. intros e [= ->]. by apply Hout. }
    destruct (env_next_action env (count is_next_action (trace w))) as [mid|e] eqn:Hn.
    { eapply (Hstop (Returned tt)); [discriminate | | exact H].
      destruct mid; simpl; by rewrite <- app_assoc. }
    destruct (is_signal e) eqn:Hsig.
    { eapply (Hstop (Raised e)); [| | exact H].
      - intros e' [= <-]. by left.
      - simpl. by rewrite <- app_assoc. }
    destruct (is_network_error e) eqn:Hnet.
    2:{ eapply (Hstop (Raised e)); [| | exact H].
        - intros e' [= <-]. right. eauto.
        - simpl. by rewrite <- app_assoc. }
    apply IH in H as (ext & k & Ht & H1 & H2 & H3 & H4 & H5 & H6 & H7).
    exists (call_sleep d :: call_next_action event :: ext), (S k).
    simpl in *. rewrite Ht, <- !app_assoc. simpl.
    rewrite H2, H4, H5, H6. split_and!; auto; lia.
Qed.

(** After [k] transient failures the handler stands at the answer to the
    call number [k] of the inner action. *)
Lemma handler_after_failures reg N k :
  retry_attempts p = Z.of_nat N → (k ≤ N)%nat →
  (∀ i, (i < k)%nat → fails_transiently (env_next_action env i)) →
  (∀ i, (i < k)%nat → env_sleep env i = None) →
  ∃ w,
    trace w = call_next_action event :: retry_trace event (retry_delay_base_ms p) 0 k
    ∧ (∀ c, others_keep c env → last_sent_message_ids w !! c = reg !! c)
    ∧ (others_idle env → last_sent_message_ids w = reg)
    ∧ network_error_handler p env event (start reg) =
        match env_next_action env k with
        | Returned message_id_raw =>
            (Returned tt, record_message_id (channel_id event) message_id_raw w)
        | Raised e =>
            if is_signal e then (Raised e, w)
            else if is_network_error e then
              match retry_loop p env event (N - k) k w with
              | (Finished out, w2) => (out, w2)
              | (Exhausted, w2) =>
                  recover p env (channel_id event) (reg !! channel_id event) w2
              end
            else (Raised e, w)
        end.
Proof.
  intros HN Hk Hfail Hsleep. unfold network_error_handler. cbv zeta.
  rewrite HN, Nat2Z.id.
  change (await_next_action env event (start reg))
    with (env_next_action env O, suspend env (call_next_action event) (start reg)).
  cbv iota beta.
  set (w1 := suspend env (call_next_action event) (start reg)).
  assert (Ht1 : trace w1 = [call_next_action event]) by done.
  destruct k as [|k].
  - exists w1. rewrite Nat.sub_0_r. split_and!; try done.
    + intros c Hc. unfold w1. simpl. by rewrite Hc.
    + intros Hi. unfold w1. simpl. by rewrite Hi.
  - destruct (Hfail O ltac:(lia)) as (e0 & He0 & Hsig0 & Hnet0).
    rewrite He0, Hsig0, Hnet0.
    destruct (retry_loop_failures p env event k (S (N - S k)) O w1)
      as (w' & Hloop & Htr & Hkeep & Hidle).
    { intros i Hi. rewrite Ht1. simpl. apply Hsleep. lia. }
    { intros i Hi. rewrite Ht1. simpl. apply Hfail. lia. }
    assert (HloopN : retry_loop p env event N 0 w1
                     = retry_loop p env event (S (N - S k)) k w')
      by (simpl (O + k)%nat in Hloop; rewrite <- Hloop; f_equal; lia).
    rewrite HloopN, retry_loop_S. cbv zeta.
    set (d := backoff_delay (retry_delay_base_ms p) k).
    rewrite Htr, Ht1, !count_app.
    destruct (count_retry_trace event (retry_delay_base_ms p) k O) as (-> & -> & _).
    simpl (count _ [_]). simpl (_ + _)%nat.
    rewrite (Hsleep k) by lia.
    exists (suspend env (call_next_action event) (suspend env (call_sleep d) w')).
    split_and!.
    + rewrite retry_trace_snoc. cbn [trace suspend].
      rewrite Htr, Ht1, <- !app_assoc. done.
    + intros c Hc. simpl. rewrite !Hc. rewrite (Hkeep c Hc).
      unfold w1. simpl. by rewrite Hc.
    + intros Hi. simpl. rewrite !Hi, (Hidle Hi). unfold w1. simpl. by rewrite Hi.
    + destruct (env_next_action env (S k)) as [mid|e]; [done |].
      destruct (is_signal e); [done |].
      by destruct (is_network_error e).
Qed.

(** The notice is sent once; only a signal leaves it. *)
Lemma send_error_notice_general c w :
  ∃ w', snd (send_error_notice p env c w) = w'
    ∧ trace w' = trace w ++ [call_send_message c (error_message_text p)]
    ∧ (∀ e, fst (send_error_notice p env c w) = Raised e →
         is_signal e = true ∧ ∃ i, env_send_message env i = Raised e)
    ∧ ((∀ i e, env_send_message env i = Raised e → is_signal e = false) →
       fst (send_error_notice p env c w) = Returned tt).
Proof.
  eexists. split; [reflexivity |]. unfold send_error_notice, await_send_message.
  destruct (env_send_message env (count is_send_message (trace w))) as [resp|e] eqn:Hs.
  - destruct (if truthy resp then message_id resp else None); simpl;
      split_and!; try done.
  - destruct (isinstance_Exception e) eqn:Hex; simpl; split_and!; try done.
    + intros e' [= <-]. split; [|eauto].
      rewrite is_signal_not_Exception. by rewrite Hex.
    + intros Hno. specialize (Hno _ _ Hs).
      rewrite is_signal_not_Exception, Hex in Hno. done.
Qed.

(** What any run of the recovery adds to the trace, and what can leave
    it. *)
Lemma recover_general c snapshot w r w' :
  recover p env c snapshot w = (r, w') →
  ∃ ext j,
    trace w' = trace w ++ ext
    ∧ count is_next_action ext = O
    ∧ count is_recall_and_clear ext = (if nonempty_message_id snapshot then 1 else 0)%nat
    ∧ (count is_recall_message ext
       ≤ if nonempty_message_id snapshot
         then Z.to_nat (recall_retry_attempts p + 1) else 0)%nat
    ∧ (count is_send_message ext ≤ 1)%nat
    ∧ sleeps ext = map (backoff_delay (recall_retry_delay_base_ms p)) (seq 0 j)
    ∧ (j ≤ Z.to_nat (recall_retry_attempts p))%nat
    ∧ (∀ e, r = Raised e → is_signal e = true)
    ∧ (recall_undisturbed env →
       count is_send_message ext = 1%nat
       ∧ ∃ ext0, ext = ext0 ++ [call_send_message c (error_message_text p)])
    ∧ (recall_undisturbed env → send_undisturbed env → r = Returned tt).
Proof.
  unfold recover.
  set (first_part := match snapshot with
                     | Some m => if String.eqb m EmptyString then (Returned tt, w)
                                 else _
                     | None => (Returned tt, w)
                     end).
  assert (Hfirst : ∃ r1 w1 ext j,
    first_part = (r1, w1)
    ∧ trace w1 = trace w ++ ext
    ∧ count is_next_action ext = O
    ∧ count is_recall_and_clear ext = (if nonempty_message_id snapshot then 1 else 0)%nat
    ∧ (count is_recall_message ext
       ≤ if nonempty_message_id snapshot
         then Z.to_nat (recall_retry_attempts p + 1) else 0)%nat
    ∧ count is_send_message ext = O
    ∧ sleeps ext = map (backoff_delay (recall_retry_delay_base_ms p)) (seq 0 j)
    ∧ (j ≤ Z.to_nat (recall_retry_attempts p))%nat
    ∧ (∀ e, r1 = Raised e → is_signal e = true)
    ∧ (recall_undisturbed env → r1 = Returned tt)).
  { assert (Hskip : nonempty_message_id snapshot = false →
              ∃ (r1 : result exn unit) w1 ext j,
                (Returned tt, w) = (r1, w1)
                ∧ trace w1 = trace w ++ ext
                ∧ count is_next_action ext = O
                ∧ count is_recall_and_clear ext
                  = (if nonempty_message_id snapshot then 1 else 0)%nat
                ∧ (count is_recall_message ext
                   ≤ if nonempty_message_id snapshot
                     then Z.to_nat (recall_retry_attempts p + 1) else 0)%nat
                ∧ count is_send_message ext = O
                ∧ sleeps ext
                  = map (backoff_delay (recall_retry_delay_base_ms p)) (seq 0 j)
                ∧ (j ≤ Z.to_nat (recall_retry_attempts p))%nat
                ∧ (∀ e, r1 = Raised e → is_signal e = true)
                ∧ (recall_undisturbed env → r1 = Returned tt)).
    { intros Hb. exists (Returned tt), w, [], O. rewrite Hb, app_nil_r.
      simpl. split_and!; auto; try lia. discriminate. }
    subst first_part. destruct snapshot as [m|]; [|by apply Hskip].
    destruct (String.eqb m EmptyString) eqn:Hm.
    { apply Hskip. simpl. by rewrite Hm. }
    destruct (_recall_and_clear_message_id env c m (log_sensitive_info p)
                (recall_retry_attempts p) (recall_retry_delay_base_ms p) w)
      as [r1 w1] eqn:Hrec.
    destruct (recall_general _ _ _ _ _ _ _ _ _ Hrec)
      as (ext & j & Ht & H1 & H2 & H3 & H4 & H5 & H6 & H7 & H8).
    exists r1, w1, (call_recall_and_clear_message_id c m :: ext), j.
    simpl. rewrite Hm, H1, H2, H3. simpl. split_and!; auto.
    - intros e He. by apply H8.
    - intros [Hnr Hns]. destruct r1 as [[]|e]; [done |].
      destruct (H8 e eq_refl) as (Hsig & [[i Hi] | (i & s & Hi & _)]).
      + apply Hnr in Hi. congruence.
      + rewrite Hns in Hi. discriminate. }
  destruct Hfirst as (r1 & w1 & ext & j & -> & Ht & H1 & H2 & H3 & H4 & H5 & H6 & H7 & H8).
  destruct r1 as [u|e].
  - destruct (send_error_notice_general c w1) as (w2 & Hw2 & Ht2 & Hraise & Hret).
    intros Hrun.
    assert (r = fst (send_error_notice p env c w1)) as -> by (by rewrite Hrun).
    assert (w' = w2) as -> by (by rewrite <- Hw2, Hrun).
    exists (ext ++ [call_send_message c (error_message_text p)]), j.
    rewrite Ht2, Ht, <- app_assoc, !count_app, sleeps_app. simpl.
    rewrite H1, H2, H4, H5, app_nil_r. split_and!; auto; try lia.
    + intros e He. by apply Hraise.
    + intros _. split; [lia | by exists ext].
  - intros [= <- <-]. exists ext, j. rewrite H4.
    split_and!; auto; try lia.
    all: intros Hu; specialize (H8 Hu); discriminate.
Qed.

(** What can leave the handler, and the sleeps of any run. *)
Lemma handler_general reg r w' :
  network_error_handler p env event (start reg) = (r, w') →
  (∀ e, r = Raised e →
     is_signal e = true
     ∨ (is_signal e = false ∧ is_network_error e = false
        ∧ ∃ i, env_next_action env i = Raised e))
  ∧ ∃ k j,
      (k ≤ Z.to_nat (retry_attempts p))%nat
      ∧ (j ≤ Z.to_nat (recall_retry_attempts p))%nat
      ∧ sleeps (trace w')
        = map (backoff_delay (retry_delay_base_ms p)) (seq 0 k)
          ++ map (backoff_delay (recall_retry_delay_base_ms p)) (seq 0 j)
      ∧ (count is_next_action (trace w') ≤ S k)%nat.
Proof.
  unfold network_error_handler. cbv zeta.
  change (await_next_action env event (start reg))
    with (env_next_action env O, suspend env (call_next_action event) (start reg)).
  cbv iota beta.
  set (w1 := suspend env (call_next_action event) (start reg)).
  assert (Hquiet : ∀ w2, trace w2 = [call_next_action event] →
    ∃ k j, (k ≤ Z.to_nat (retry_attempts p))%nat
      ∧ (j ≤ Z.to_nat (recall_retry_attempts p))%nat
      ∧ sleeps (trace w2)
        = map (backoff_delay (retry_delay_base_ms p)) (seq 0 k)
          ++ map (backoff_delay (recall_retry_delay_base_ms p)) (seq 0 j)
      ∧ (count is_next_action (trace w2) ≤ S k)%nat).
  { intros w2 ->. exists O, O. simpl. split_and!; auto; lia. }
  destruct (env_next_action env O) as [mid|e] eqn:Hn.
  { intros [= <- <-]. split; [discriminate |]. apply Hquiet. by destruct mid. }
  destruct (is_signal e) eqn:Hsig.
  { intros [= <- <-]. split; [|by apply Hquiet]. intros e' [= <-]. by left. }
  destruct (is_network_error e) eqn:Hnet.
  2:{ intros [= <- <-]. split; [|by apply Hquiet]. intros e' [= <-]. right. eauto. }
  destruct (retry_loop p env event (Z.to_nat (retry_attempts p)) 0 w1)
    as [ex w2] eqn:Hloop.
  destruct (retry_loop_general _ _ _ _ _ Hloop)
    as (ext & k & Ht & H1 & H2 & H3 & H4 & H5 & H6 & H7).
  assert (Ht2 : trace w2 = call_next_action event :: ext) by (by rewrite Ht).
  destruct ex as [out|].
  - intros [= <- <-]. split.
    + intros e' ->. by apply H7.
    + exists k, O. rewrite Ht2. simpl. rewrite H2, app_nil_r.
      split_and!; auto; lia.
  - intros Hrec.
    destruct (recover_general _ _ _ _ _ Hrec)
      as (ext' & j & Ht' & G1 & G2 & G3 & G4 & G5 & G6 & G7 & G8 & G9).
    split.
    + intros e' He'. left. by apply G7.
    + exists k, j. rewrite Ht', Ht2. simpl.
      rewrite sleeps_app, count_app, H2, G5, G1. split_and!; auto; lia.
Qed.

End HandlerFacts.

(** ** The properties of the state machine *)



(** C3: when the call number [k] of the inner action ([k = 0] the initial
    attempt, [k ≥ 1] the retry of index [k - 1 < N]) raises an error that is
    not transient, after [k] transient failures, the handler raises that very
    error at once: the trace ends with that call, so there is no further
    retry, no recall and no notice, and on the initial attempt no sleep
    either.  The handler writes nothing to the registry: what other tasks
    leave alone is unchanged. *)
Theorem non_transient_error_propagates
    (p : params) (env : Env) (event : Event) (reg : gmap string string) (N : nat) :
  retry_attempts p = Z.of_nat N →
  let run := network_error_handler p env event (start reg) in
  ∀ k e, (k ≤ N)%nat →
    (∀ i, (i < k)%nat → fails_transiently (env_next_action env i)) →
    (∀ i, (i < k)%nat → env_sleep env i = None) →
    env_next_action env k = Raised e →
    is_signal e = false → is_network_error e = false →
    fst run = Raised e
    ∧ trace (snd run)
      = call_next_action event :: retry_trace event (retry_delay_base_ms p) 0 k
    ∧ count is_next_action (trace (snd run)) = S k
    ∧ length (sleeps (trace (snd run))) = k
    ∧ count is_recall_and_clear (trace (snd run)) = O
    ∧ count is_recall_message (trace (snd run)) = O
    ∧ count is_send_message (trace (snd run)) = O
    ∧ (∀ c, others_keep c env → last_sent_message_ids (snd run) !! c = reg !! c)
    ∧ (others_idle env → last_sent_message_ids (snd run) = reg).
Proof.
  intros HN run k e Hk Hfail Hsleep He Hsig Hnet.
  destruct (handler_after_failures p env event reg N k HN Hk Hfail Hsleep)
    as (w & Ht & Hkeep & Hidle & Hrun).
  rewrite He, Hsig, Hnet in Hrun. subst run. rewrite Hrun. simpl.
  rewrite Ht. simpl. rewrite sleeps_retry_trace, length_map, length_seq.
  destruct (count_retry_trace event (retry_delay_base_ms p) k O) as (-> & _ & -> & -> & ->).
  done.
Qed.

Lemma non_transient_error_propagates_witness :
  let p := Params 3 1000 "sorry" false 2 500 in
  let event := {| channel_id := "general" |} in
  let reg : gmap string string := {[ "general" := "m0" ]} in
  let bad_input := Exn OtherException "bad input" in
  let env_retry := {| env_next_action := λ i,
                        if (i <? 1)%nat then Raised (Exn NetworkError "link down")
                        else Raised bad_input;
                      env_sleep := λ _, None;
                      env_recall_message := λ _, Returned tt;
                      env_send_message := λ _, Returned (Response true (Some "n1"));
                      env_other_tasks := λ _ r, r |} in
  let env_first := {| env_next_action := λ _, Raised bad_input;
                      env_sleep := λ _, None;
                      env_recall_message := λ _, Returned tt;
                      env_send_message := λ _, Returned (Response true (Some "n1"));
                      env_other_tasks := λ _ r, r |} in
  fst (network_error_handler p env_retry event (start reg)) = Raised bad_input
  ∧ (fst (network_error_handler p env_first event (start reg)) = Raised bad_input
     ∧ trace (snd (network_error_handler p env_first event (start reg)))
       = [call_next_action event]
     ∧ last_sent_message_ids (snd (network_error_handler p env_first event (start reg)))
       = reg).
Proof.
  intros p event reg bad_input env_retry env_first. split.
  - refine (proj1 (non_transient_error_propagates p env_retry event reg 3 eq_refl 1%nat
                     bad_input _ _ _ _ _ _)).
    + lia.
    + intros i Hi. destruct i as [|i]; [|lia].
      eexists; split_and!; [reflexivity | reflexivity | vm_compute; reflexivity].
    + done.
    + reflexivity.
    + reflexivity.
    + vm_compute. reflexivity.
  - pose proof (non_transient_error_propagates p env_first event reg 3 eq_refl O
                  bad_input) as H.
    destruct H as (H1 & H2 & _ & _ & _ & _ & _ & _ & H3).
    + lia.
    + intros i Hi. lia.
    + intros i Hi. lia.
    + reflexivity.
    + reflexivity.
    + vm_compute. reflexivity.
    + split_and!; [exact H1 | exact H2 | apply H3; by intros i r].
Defined.

(** C4: a signal ([KeyboardInterrupt] or [asyncio.CancelledError]) raised by
    the call number [k] of the inner action (initial attempt or retry), or
    interrupting the sleep before a retry, leaves the handler at once: the
    trace ends with the interrupted call, so nothing is retried, recalled or
    sent afterwards.  The signal is never given to the classifier: this holds
    whatever [is_network_error] would answer on it. *)
Theorem cancellation_propagates
    (p : params) (env : Env) (event : Event) (reg : gmap string string) (N : nat) :
  retry_attempts p = Z.of_nat N →
  let run := network_error_handler p env event (start reg) in
  (∀ k e, (k ≤ N)%nat →
     (∀ i, (i < k)%nat → fails_transiently (env_next_action env i)) →
     (∀ i, (i < k)%nat → env_sleep env i = None) →
     env_next_action env k = Raised e →
     is_signal e = true →
     fst run = Raised e
     ∧ trace (snd run)
       = call_next_action event :: retry_trace event (retry_delay_base_ms p) 0 k
     ∧ count is_next_action (trace (snd run)) = S k
     ∧ count is_recall_and_clear (trace (snd run)) = O
     ∧ count is_recall_message (trace (snd run)) = O
     ∧ count is_send_message (trace (snd run)) = O)
  ∧ (∀ k s, (k < N)%nat →
       (∀ i, (i ≤ k)%nat → fails_transiently (env_next_action env i)) →
       (∀ i, (i < k)%nat → env_sleep env i = None) →
       env_sleep env k = Some s →
       fst run = Raised (Exn (BaseSignal s) EmptyString)
       ∧ trace (snd run)
         = call_next_action event :: retry_trace event (retry_delay_base_ms p) 0 k
           ++ [call_sleep (backoff_delay (retry_delay_base_ms p) k)]
       ∧ count is_next_action (trace (snd run)) = S k
       ∧ count is_recall_and_clear (trace (snd run)) = O
       ∧ count is_recall_message (trace (snd run)) = O
       ∧ count is_send_message (trace (snd run)) = O).
Proof.
  intros HN run. split.
  - intros k e Hk Hfail Hsleep He Hsig.
    destruct (handler_after_failures p env event reg N k HN Hk Hfail Hsleep)
      as (w & Ht & _ & _ & Hrun).
    rewrite He, Hsig in Hrun. subst run. rewrite Hrun. simpl. rewrite Ht. simpl.
    destruct (count_retry_trace event (retry_delay_base_ms p) k O) as (-> & _ & -> & -> & ->).
    done.
  - intros k s Hk Hfail Hsleep Hs.
    destruct (handler_after_failures p env event reg N k HN) as (w & Ht & _ & _ & Hrun).
    { lia. }
    { intros i Hi. apply Hfail. lia. }
    { done. }
    destruct (Hfail k (le_n k)) as (e & He & Hsig & Hnet).
    rewrite He, Hsig, Hnet in Hrun.
    replace (N - k)%nat with (S (N - S k)) in Hrun by lia.
    rewrite retry_loop_S in Hrun. cbv zeta in Hrun.
    rewrite Ht in Hrun. simpl in Hrun.
    destruct (count_retry_trace event (retry_delay_base_ms p) k O) as (Hc1 & Hc2 & Hc3 & Hc4 & Hc5).
    rewrite Hc2, Hs in Hrun.
    subst run. rewrite Hrun. simpl. rewrite Ht. simpl.
    rewrite !count_app, Hc1, Hc3, Hc4, Hc5. simpl. split_and!; try done; lia.
Qed.

Lemma cancellation_propagates_witness :
  let p := Params 3 1000 "sorry" false 2 500 in
  let event := {| channel_id := "general" |} in
  let reg : gmap string string := {[ "general" := "m0" ]} in
  let cancelled := Exn (BaseSignal CancelledError) "network timeout" in
  let env_call := {| env_next_action := λ i,
                       if (i <? 2)%nat then Raised (Exn NetworkError "link down")
                       else Raised cancelled;
                     env_sleep := λ _, None;
                     env_recall_message := λ _, Returned tt;
                     env_send_message := λ _, Returned (Response true (Some "n1"));
                     env_other_tasks := λ _ r, r |} in
  let env_sleeping := {| env_next_action := λ _, Raised (Exn NetworkError "link down");
                         env_sleep := λ i,
                           if (i <? 1)%nat then None else Some KeyboardInterrupt;
                         env_recall_message := λ _, Returned tt;
                         env_send_message := λ _, Returned (Response true (Some "n1"));
                         env_other_tasks := λ _ r, r |} in
  is_network_error cancelled = true
  ∧ fst (network_error_handler p env_call event (start reg)) = Raised cancelled
  ∧ fst (network_error_handler p env_sleeping event (start reg))
    = Raised (Exn (BaseSignal KeyboardInterrupt) EmptyString).
Proof.
  intros p event reg cancelled env_call env_sleeping.
  split; [vm_compute; reflexivity |]. split.
  - refine (proj1 (proj1 (cancellation_propagates p env_call event reg 3 eq_refl)
                     2%nat cancelled _ _ _ _ _)).
    + lia.
    + intros i Hi. destruct i as [|[|i]]; [| |lia];
        (eexists; split_and!; [reflexivity | reflexivity | vm_compute; reflexivity]).
    + done.
    + reflexivity.
    + reflexivity.
  - refine (proj1 (proj2 (cancellation_propagates p env_sleeping event reg 3 eq_refl)
                     1%nat KeyboardInterrupt _ _ _ _)).
    + lia.
    + intros i _. eexists; split_and!; [reflexivity | reflexivity | vm_compute; reflexivity].
    + intros i Hi. destruct i as [|i]; [reflexivity | lia].
    + reflexivity.
Defined.

(** C10: when the inner action completes and returns [None], on the initial
    attempt or on a retry after transient failures, the handler returns
    normally and has written nothing to the registry: the entry of the
    event's channel, and every entry the other tasks leave alone, is as it
    was before the invocation. *)
Theorem success_without_message_id_keeps_registry
    (p : params) (env : Env) (event : Event) (reg : gmap string string) (N k : nat) :
  retry_attempts p = Z.of_nat N → (k ≤ N)%nat →
  (∀ i, (i < k)%nat → fails_transiently (env_next_action env i)) →
  (∀ i, (i < k)%nat → env_sleep env i = None) →
  env_next_action env k = Returned None →
  let run := network_error_handler p env event (start reg) in
  fst run = Returned tt
  ∧ (others_keep (channel_id event) env →
     last_sent_message_ids (snd run) !! channel_id event = reg !! channel_id event)
  ∧ (∀ c, others_keep c env → last_sent_message_ids (snd run) !! c = reg !! c)
  ∧ (others_idle env → last_sent_message_ids (snd run) = reg).
Proof.
  intros HN Hk Hfail Hsleep Hnone run.
  destruct (handler_after_failures p env event reg N k HN Hk Hfail Hsleep)
    as (w & Ht & Hkeep & Hidle & Hrun).
  rewrite Hnone in Hrun. subst run. rewrite Hrun. simpl.
  split_and!; auto.
Qed.

Lemma success_without_message_id_keeps_registry_witness :
  let p := Params 3 1000 "sorry" false 2 500 in
  let event := {| channel_id := "general" |} in
  let reg : gmap string string := {[ "general" := "m0" ]} in
  let env := {| env_next_action := λ i,
                  if (i <? 1)%nat then Raised (Exn NetworkError "link down")
                  else Returned None;
                env_sleep := λ _, None;
                env_recall_message := λ _, Returned tt;
                env_send_message := λ _, Returned (Response true (Some "n1"));
                env_other_tasks := λ _ r, <["lobby" := "x9"]> r |} in
  last_sent_message_ids (snd (network_error_handler p env event (start reg)))
    !! "general" = Some "m0".
Proof.
  intros p event reg env.
  refine (proj1 (proj2 (success_without_message_id_keeps_registry
                          p env event reg 3 1 eq_refl _ _ _ _)) _).
  - lia.
  - intros i Hi. destruct i as [|i]; [|lia].
    eexists; split_and!; [reflexivity | reflexivity | vm_compute; reflexivity].
  - done.
  - reflexivity.
  - intros i r. simpl. by rewrite lookup_insert_ne.
Defined.




(** C5: the recall routine first compares the channel's current entry with
    the message id it was given.  When they differ it returns without
    calling [recall_message] and without touching the registry.  When one
    of its [recall_message] calls succeeds it removes the channel's entry,
    which is then absent.  It changes the registry in no other way, and the
    registry, being a map, holds at most one message id per channel. *)
Theorem recall_rechecks_then_clears
    (env : Env) (c m : string) (lsi : bool) (R : Z) (base : Q) (w : world) :
  let run := _recall_and_clear_message_id env c m lsi R base w in
  (last_sent_message_ids w !! c ≠ Some m →
     fst run = Returned tt
     ∧ last_sent_message_ids (snd run) = last_sent_message_ids w
     ∧ trace (snd run) = trace w ++ [call_recall_and_clear_message_id c m]
     ∧ count is_recall_message (trace (snd run)) = count is_recall_message (trace w))
  ∧ ((∃ i, (count is_recall_message (trace w) ≤ i
            < count is_recall_message (trace (snd run)))%nat
           ∧ ∃ u, env_recall_message env i = Returned u) →
     fst run = Returned tt
     ∧ last_sent_message_ids (snd run) = delete c (last_sent_message_ids w)
     ∧ last_sent_message_ids (snd run) !! c = None)
  ∧ (last_sent_message_ids w !! c = Some m → 0 ≤ R →
     (∃ u, env_recall_message env (count is_recall_message (trace w)) = Returned u) →
     fst run = Returned tt
     ∧ last_sent_message_ids (snd run) !! c = None
     ∧ trace (snd run)
       = trace w ++ [call_recall_and_clear_message_id c m; call_recall_message c m])
  ∧ (last_sent_message_ids (snd run) = last_sent_message_ids w
     ∨ last_sent_message_ids (snd run) = delete c (last_sent_message_ids w))
  ∧ (∀ c', c' ≠ c →
       last_sent_message_ids (snd run) !! c' = last_sent_message_ids w !! c')
  ∧ (∀ c' m1 m2,
       last_sent_message_ids (snd run) !! c' = Some m1 →
       last_sent_message_ids (snd run) !! c' = Some m2 → m1 = m2).
Proof.
  intros run.
  assert (Hframe : last_sent_message_ids (snd run) = last_sent_message_ids w
                   ∨ last_sent_message_ids (snd run) = delete c (last_sent_message_ids w)).
  { destruct run as [r w'] eqn:Hrun.
    destruct (recall_general _ _ _ _ _ _ _ _ _ Hrun) as (ext & j & Hall). simpl. apply Hall. }
  split_and!; [| | |exact Hframe| |].
  - intros Hne. subst run. unfold _recall_and_clear_message_id. cbv zeta.
    simpl (last_sent_message_ids (suspend_locked _ _)).
    rewrite bool_decide_eq_false_2 by done. simpl.
    split_and!; try done. rewrite count_app. simpl. lia.
  - intros (i & Hi & u & Hu). subst run.
    unfold _recall_and_clear_message_id in *. cbv zeta in *.
    simpl (last_sent_message_ids (suspend_locked _ _)) in *.
    case_bool_decide as Hcur.
    + match goal with
      | |- context [recall_loop ?e ?c ?m ?R ?b ?t ?a ?w0] =>
          destruct (recall_loop e c m R b t a w0) as [r w'] eqn:Hloop
      end.
      simpl in *.
      destruct (recall_loop_success _ _ _ _ _ _ _ _ _ _ Hloop) as (-> & Hdel).
      { exists i. split; [|eauto]. simpl. rewrite count_app. simpl. lia. }
      simpl in Hdel. rewrite Hdel. split_and!; try done. apply lookup_delete_eq.
    + simpl in Hi. rewrite count_app in Hi. simpl in Hi. lia.
  - intros Hcur HR (u & Hu). subst run.
    unfold _recall_and_clear_message_id. cbv zeta.
    simpl (last_sent_message_ids (suspend_locked _ _)).
    rewrite bool_decide_eq_true_2 by done.
    replace (Z.to_nat (R + 1)) with (S (Z.to_nat R)) by lia.
    rewrite recall_loop_S. cbv zeta.
    simpl (trace (suspend_locked _ _)). rewrite count_app. simpl (count _ [_]).
    rewrite Nat.add_0_r, Hu. simpl.
    split_and!; try done; [apply lookup_delete_eq | by rewrite <- app_assoc].
  - intros c' Hne. destruct Hframe as [-> | ->]; [done | by apply lookup_delete_ne].
  - intros c' m1 m2 H1 H2. congruence.
Qed.


(** ** Runs on concrete inputs *)

(** The scenario of the specification: [retry_attempts = 2],
    [retry_delay_base = 100], the inner action fails transiently three times.
    The handler sleeps 100 ms, then 200 ms, recalls the previous message,
    sends the notice, records its id and returns without raising. *)
Example three_transient_failures :
  let p := Params 2 100 "sorry" false 2 500 in
  let event := {| channel_id := "general" |} in
  let reg : gmap string string := {[ "general" := "m0" ]} in
  let env := {| env_next_action := λ _, Raised (Exn NetworkError "link down");
                env_sleep := λ _, None;
                env_recall_message := λ _, Returned tt;
                env_send_message := λ _, Returned (Response true (Some "n1"));
                env_other_tasks := λ _ r, r |} in
  let run := network_error_handler p env event (start reg) in
  fst run = Returned tt
  ∧ trace (snd run)
    = [ call_next_action event;
        call_sleep (100 # 1000); call_next_action event;
        call_sleep (200 # 1000); call_next_action event;
        call_recall_and_clear_message_id "general" "m0";
        call_recall_message "general" "m0";
        call_send_message "general" "sorry" ]
  ∧ last_sent_message_ids (snd run) !! "general" = Some "n1".
Proof. vm_compute. split_and!; reflexivity. Qed.

(** The scenario of the specification: a plain value error "bad input"
    propagates at once, with no sleep and no recall. *)
Example plain_value_error :
  let p := Params 3 1000 "sorry" false 2 500 in
  let event := {| channel_id := "general" |} in
  let reg : gmap string string := {[ "general" := "m0" ]} in
  let env := {| env_next_action := λ _, Raised (Exn OtherException "bad input");
                env_sleep := λ _, None;
                env_recall_message := λ _, Returned tt;
                env_send_message := λ _, Returned (Response true (Some "n1"));
                env_other_tasks := λ _ r, r |} in
  network_error_handler p env event (start reg)
  = (Raised (Exn OtherException "bad input"),
     {| last_sent_message_ids := reg; trace := [call_next_action event] |}).
Proof. vm_compute. reflexivity. Qed.

(** Another task records a newer message for the channel while this one is
    retrying: the recall routine finds the entry changed, calls
    [recall_message] not at all and leaves the newer entry for the notice to
    replace. *)
Example newer_message_is_not_recalled :
  let p := Params 1 1000 "sorry" false 2 500 in
  let event := {| channel_id := "general" |} in
  let reg : gmap string string := {[ "general" := "m0" ]} in
  let env := {| env_next_action := λ _, Raised (Exn NetworkError "link down");
                env_sleep := λ _, None;
                env_recall_message := λ _, Returned tt;
                env_send_message := λ _, Returned (Response true None);
                env_other_tasks := λ i r,
                  if (i =? 1)%nat then <["general" := "m5"]> r else r |} in
  let run := network_error_handler p env event (start reg) in
  fst run = Returned tt
  ∧ trace (snd run)
    = [ call_next_action event;
        call_sleep (1000 # 1000); call_next_action event;
        call_recall_and_clear_message_id "general" "m0";
        call_send_message "general" "sorry" ]
  ∧ last_sent_message_ids (snd run) !! "general" = Some "m5".
Proof. vm_compute. split_and!; reflexivity. Qed.

(** The classifier looks at the lower-cased text, and at "fetch" only for a
    [TypeError]. *)
Example classifier_runs :
  is_network_error (Exn OtherException "Connection RESET by peer") = true
  ∧ is_network_error (Exn TypeError "Failed to FETCH") = true
  ∧ is_network_error (Exn OtherException "Failed to FETCH") = false
  ∧ is_network_error (Exn OtherException "bad input") = false.
Proof. vm_compute. split_and!; reflexivity. Qed.

(** Construction with a float for a retry count, and with a zero delay. *)
Example rejected_configurations :
  validate_config (merge_config (Some {[ "retry_attempts" := PyFloat 3 ]}))
  = Raised invalid_retry_attempts
  ∧ validate_config (merge_config (Some {[ "retry_delay_base" := PyInt 0 ]}))
    = Raised invalid_retry_delay_base
  ∧ validate_config (merge_config (Some {[ "log_sensitive_info" := PyInt 1 ]}))
    = Raised invalid_log_sensitive_info
  ∧ validate_config (merge_config None) = Returned tt.
Proof. vm_compute. split_and!; reflexivity. Qed.

(** * Further properties of the code *)

(** ** Validation and construction *)

(** X1: [validate_config] checks the six fields in a fixed order and raises
    for the first one that is wrong: the [ValueError] it raises names a field
    exactly when that field violates its constraint and every field checked
    before it is fine; it returns exactly when all six are fine. *)
Theorem validation_reports_first_violation (config : gmap string pyval) :
  let v1 := not_a_count (dict_get config "retry_attempts") in
  let v2 := not_a_delay (dict_get config "retry_delay_base") in
  let v3 := ∀ s, dict_get config "error_message" ≠ PyStr s in
  let v4 := ∀ b, dict_get config "log_sensitive_info" ≠ PyBool b in
  let v5 := not_a_count (dict_get config "recall_retry_attempts") in
  let v6 := not_a_delay (dict_get config "recall_retry_delay_base") in
  (validate_config config = Raised invalid_retry_attempts ↔ v1)
  ∧ (validate_config config = Raised invalid_retry_delay_base ↔ ¬ v1 ∧ v2)
  ∧ (validate_config config = Raised invalid_error_message ↔ ¬ v1 ∧ ¬ v2 ∧ v3)
  ∧ (validate_config config = Raised invalid_log_sensitive_info
     ↔ ¬ v1 ∧ ¬ v2 ∧ ¬ v3 ∧ v4)
  ∧ (validate_config config = Raised invalid_recall_retry_attempts
     ↔ ¬ v1 ∧ ¬ v2 ∧ ¬ v3 ∧ ¬ v4 ∧ v5)
  ∧ (validate_config config = Raised invalid_recall_retry_delay_base
     ↔ ¬ v1 ∧ ¬ v2 ∧ ¬ v3 ∧ ¬ v4 ∧ ¬ v5 ∧ v6)
  ∧ (validate_config config = Returned tt
     ↔ ¬ v1 ∧ ¬ v2 ∧ ¬ v3 ∧ ¬ v4 ∧ ¬ v5 ∧ ¬ v6).
Proof.
  intros v1 v2 v3 v4 v5 v6. subst v1 v2 v3 v4 v5 v6.
  rewrite <- !count_check, <- !delay_check, <- str_check, <- bool_check.
  unfold validate_config.
  repeat match goal with
         | |- context [if ?b then Raised _ else _] => destruct b
         end.
  all: split_and!; split; intros; try discriminate; try done; intuition congruence.
Qed.

Section ConstructionFacts.

Lemma dict_get_merge_agree (config config' : gmap string pyval) k :
  config !! k = config' !! k →
  dict_get (merge_config (Some config)) k = dict_get (merge_config (Some config')) k.
Proof.
  intros H. rewrite !merge_config_union. unfold dict_get.
  by rewrite !lookup_union, H.
Qed.

Lemma known_key_cases (P : string → Prop) :
  (∀ k, k ∈ known_keys → P k) →
  P "retry_attempts" ∧ P "retry_delay_base" ∧ P "error_message"
  ∧ P "log_sensitive_info" ∧ P "recall_retry_attempts" ∧ P "recall_retry_delay_base".
Proof.
  intros H. split_and!; apply H; unfold known_keys;
    repeat first [apply list_elem_of_here | apply list_elem_of_further].
Qed.


End ConstructionFacts.

(** X2: construction looks at the caller's dict through the six known keys
    only: two dicts that agree on them give the same result, the same
    [ValueError] or the same handler, whatever other keys they hold.  An
    empty dict is the same as no dict, and both give the handler with the
    values of [DEFAULT_CONFIG]. *)
Theorem construction_reads_known_keys_only (env : Env) (config config' : gmap string pyval) :
  (∀ k, k ∈ known_keys → config !! k = config' !! k) →
  create_network_error_handler env (Some config)
  = create_network_error_handler env (Some config')
  ∧ create_network_error_handler env (Some ∅) = create_network_error_handler env None
  ∧ create_network_error_handler env None
    = Returned (network_error_handler
                  (Params 3 (inject_Z 1000) "抱歉，发生网络错误，消息已撤回。" false 2
                     (inject_Z 500)) env).
Proof.
  intros Hagree. split_and!; [| reflexivity | reflexivity].
  apply (known_key_cases (λ k, config !! k = config' !! k)) in Hagree
    as (H1 & H2 & H3 & H4 & H5 & H6).
  apply dict_get_merge_agree in H1, H2, H3, H4, H5, H6.
  unfold create_network_error_handler, validate_config, read_params.
  by rewrite H1, H2, H3, H4, H5, H6.
Qed.

Lemma construction_reads_known_keys_only_witness :
  create_network_error_handler
    {| env_next_action := λ _, Returned None;
       env_sleep := λ _, None;
       env_recall_message := λ _, Returned tt;
       env_send_message := λ _, Returned (Response false None);
       env_other_tasks := λ _ r, r |}
    (Some (<["retries" := PyInt 9]> (<["retry_attempts" := PyInt 5]> ∅)))
  = create_network_error_handler
      {| env_next_action := λ _, Returned None;
         env_sleep := λ _, None;
         env_recall_message := λ _, Returned tt;
         env_send_message := λ _, Returned (Response false None);
         env_other_tasks := λ _ r, r |}
      (Some (<["retry_attempts" := PyInt 5]> ∅)).
Proof.
  refine (proj1 (construction_reads_known_keys_only _ _ _ _)).
  intros k Hk. unfold known_keys in Hk.
  repeat (apply elem_of_cons in Hk as [-> | Hk]; [reflexivity |]).
  by apply elem_of_nil in Hk.
Defined.

(** ** Effort and time *)

Section EffortFacts.

Lemma count_is_sleep t : count is_sleep t = length (sleeps t).
Proof. induction t as [|c t IH]; simpl; [done |]. destruct c; simpl; by rewrite ?IH. Qed.


Lemma inject_Z_pow2_succ (i : nat) :
  (inject_Z (2 ^ Z.of_nat (S i)) == 2 * inject_Z (2 ^ Z.of_nat i))%Q.
Proof.
  rewrite Nat2Z.inj_succ, Z.pow_succ_r by lia. by rewrite inject_Z_mult.
Qed.



(** The sleeps of [k] retries from index [a] add up to
    [base * (2^(a+k) - 2^a)] milliseconds. *)
Lemma sum_backoff base k : ∀ a,
  (fold_right Qplus 0 (map (backoff_delay base) (seq a k)) * 1000
   == base * (inject_Z (2 ^ Z.of_nat (a + k)) - inject_Z (2 ^ Z.of_nat a)))%Q.
Proof.
  induction k as [|k IH]; intros a.
  - simpl. rewrite Nat.add_0_r. ring.
  - simpl fold_right. rewrite Qmult_plus_distr_l, IH.
    replace (a + S k)%nat with (S a + k)%nat by lia.
    rewrite (inject_Z_pow2_succ a).
    unfold backoff_delay. field.
Qed.

Lemma sum_app l1 l2 :
  (fold_right Qplus 0 (l1 ++ l2) == fold_right Qplus 0 l1 + fold_right Qplus 0 l2)%Q.
Proof.
  induction l1 as [|x l1 IH]; simpl; [ring |]. rewrite IH. ring.
Qed.

Lemma pow2_mono (k n : nat) :
  (k ≤ n)%nat → (inject_Z (2 ^ Z.of_nat k) <= inject_Z (2 ^ Z.of_nat n))%Q.
Proof.
  intros H. rewrite <- Zle_Qle. apply Z.pow_le_mono_r; lia.
Qed.

Lemma backoff_sum_bound base k n :
  (0 <= base)%Q → (k ≤ n)%nat →
  (fold_right Qplus 0 (map (backoff_delay base) (seq 0 k)) * 1000
   <= base * (inject_Z (2 ^ Z.of_nat n) - 1))%Q.
Proof.
  intros Hb Hk. rewrite sum_backoff. simpl (0 + k)%nat.
  change (inject_Z (2 ^ Z.of_nat 0)) with 1%Q.
  rewrite !(Qmult_comm base). apply Qmult_le_compat_r; [|done].
  apply Qplus_le_compat; [by apply pow2_mono | apply Qle_refl].
Qed.

(** The calls of any run of the handler, counted. *)
Lemma handler_counts p env event reg :
  let t := trace (snd (network_error_handler p env event (start reg))) in
  (count is_next_action t ≤ S (Z.to_nat (retry_attempts p)))%nat
  ∧ (count is_recall_and_clear t ≤ 1)%nat
  ∧ (count is_recall_message t ≤ Z.to_nat (recall_retry_attempts p + 1))%nat
  ∧ (count is_send_message t ≤ 1)%nat.
Proof.
  unfold network_error_handler. cbv zeta.
  change (await_next_action env event (start reg))
    with (env_next_action env O, suspend env (call_next_action event) (start reg)).
  cbv iota beta.
  set (w1 := suspend env (call_next_action event) (start reg)).
  assert (Hquiet : ∀ w2 : world, trace w2 = [call_next_action event] →
    (count is_next_action (trace w2) ≤ S (Z.to_nat (retry_attempts p)))%nat
    ∧ (count is_recall_and_clear (trace w2) ≤ 1)%nat
    ∧ (count is_recall_message (trace w2) ≤ Z.to_nat (recall_retry_attempts p + 1))%nat
    ∧ (count is_send_message (trace w2) ≤ 1)%nat).
  { intros w2 ->. simpl. split_and!; lia. }
  destruct (env_next_action env O) as [mid|e] eqn:Hn.
  { apply Hquiet. by destruct mid. }
  destruct (is_signal e); [by apply Hquiet |].
  destruct (is_network_error e); [|by apply Hquiet].
  destruct (retry_loop p env event (Z.to_nat (retry_attempts p)) 0 w1)
    as [ex w2] eqn:Hloop.
  destruct (retry_loop_general _ _ _ _ _ _ _ _ Hloop)
    as (ext & k & Ht & H1 & H2 & H3 & H4 & H5 & H6 & H7).
  assert (Ht2 : trace w2 = call_next_action event :: ext) by (by rewrite Ht).
  destruct ex as [out|].
  - simpl. rewrite Ht2. simpl. rewrite H4, H5, H6. split_and!; lia.
  - destruct (recover p env (channel_id event)
                (last_sent_message_ids (start reg) !! channel_id event) w2)
      as [r w'] eqn:Hrec.
    destruct (recover_general _ _ _ _ _ _ _ Hrec)
      as (ext' & j & Ht' & G1 & G2 & G3 & G4 & G5 & G6 & G7 & G8 & G9).
    simpl. rewrite Ht', Ht2. simpl. rewrite !count_app, H4, H5, H6, G1, G2.
    split_and!; try lia.
    + destruct (nonempty_message_id _); lia.
    + destruct (nonempty_message_id _); lia.
Qed.

End EffortFacts.

(** X3: whatever the inner action and the collaborators do, one invocation
    of the handler calls the inner action at most [retry_attempts + 1]
    times, sleeps at most [retry_attempts + recall_retry_attempts] times,
    enters the recall routine at most once, calls [recall_message] at most
    [recall_retry_attempts + 1] times and [send_message] at most once. *)
Theorem handler_effort_is_bounded
    (p : params) (env : Env) (event : Event) (reg : gmap string string) :
  let t := trace (snd (network_error_handler p env event (start reg))) in
  (count is_next_action t ≤ S (Z.to_nat (retry_attempts p)))%nat
  ∧ (count is_sleep t
     ≤ Z.to_nat (retry_attempts p) + Z.to_nat (recall_retry_attempts p))%nat
  ∧ (count is_recall_and_clear t ≤ 1)%nat
  ∧ (count is_recall_message t ≤ Z.to_nat (recall_retry_attempts p + 1))%nat
  ∧ (count is_send_message t ≤ 1)%nat.
Proof.
  intros t. destruct (handler_counts p env event reg) as (H1 & H2 & H3 & H4).
  fold t in H1, H2, H3, H4. split_and!; try done.
  destruct (network_error_handler p env event (start reg)) as [r w'] eqn:Hrun.
  destruct (handler_general p env event reg _ _ Hrun) as (_ & k & j & Hk & Hj & Hs & _).
  subst t. simpl. rewrite count_is_sleep, Hs, length_app, !length_map, !length_seq. lia.
Qed.



(** X5: with non-negative delay bases, the time one invocation spends
    sleeping is at most [retry_delay_base * (2^N - 1)] plus
    [recall_retry_delay_base * (2^R - 1)] milliseconds, for
    [N = retry_attempts] and [R = recall_retry_attempts], in every run. *)
Theorem total_sleep_is_bounded
    (p : params) (env : Env) (event : Event) (reg : gmap string string) (N R : nat) :
  retry_attempts p = Z.of_nat N → recall_retry_attempts p = Z.of_nat R →
  (0 <= retry_delay_base_ms p)%Q → (0 <= recall_retry_delay_base_ms p)%Q →
  (total_sleep (trace (snd (network_error_handler p env event (start reg)))) * 1000
   <= retry_delay_base_ms p * (inject_Z (2 ^ Z.of_nat N) - 1)
      + recall_retry_delay_base_ms p * (inject_Z (2 ^ Z.of_nat R) - 1))%Q.
Proof.
  intros HN HR Hb Hrb.
  destruct (network_error_handler p env event (start reg)) as [r w'] eqn:Hrun.
  destruct (handler_general p env event reg _ _ Hrun) as (_ & k & j & Hk & Hj & Hs & _).
  rewrite HN, Nat2Z.id in Hk. rewrite HR, Nat2Z.id in Hj.
  unfold total_sleep. simpl. rewrite Hs, sum_app, Qmult_plus_distr_l.
  apply Qplus_le_compat; by apply backoff_sum_bound.
Qed.

Lemma total_sleep_is_bounded_witness :
  (total_sleep (trace (snd (network_error_handler
      (Params 3 1000 "sorry" false 2 500)
      {| env_next_action := λ _, Raised (Exn NetworkError "link down");
         env_sleep := λ _, None;
         env_recall_message := λ _, Raised (Exn OtherException "gone");
         env_send_message := λ _, Returned (Response false None);
         env_other_tasks := λ _ r, r |}
      {| channel_id := "general" |} (start {[ "general" := "m0" ]})))) * 1000
   <= 1000 * (inject_Z (2 ^ Z.of_nat 3) - 1) + 500 * (inject_Z (2 ^ Z.of_nat 2) - 1))%Q.
Proof.
  refine (total_sleep_is_bounded (Params 3 1000 "sorry" false 2 500) _ _ _ 3 2
            eq_refl eq_refl _ _); vm_compute; discriminate.
Defined.

(** ** More on the classifier *)

Section ClassifierMore.
Import Text.

Lemma string_app_assoc a b c : (a +:+ b) +:+ c = a +:+ (b +:+ c).
Proof.
  induction a as [|x a IH]; [done |]. by rewrite !app_String, IH.
Qed.

Lemma occurs_in_context word s pre post :
  occurs_ignoring_case word s → occurs_ignoring_case word (pre +:+ s +:+ post).
Proof.
  intros (a & mid & b & -> & Hmid).
  exists (pre +:+ a), mid, (b +:+ post). split; [|done].
  by rewrite !string_app_assoc.
Qed.

(** A text that mentions "network request" mentions "network". *)
Lemma occurs_network_request s :
  occurs_ignoring_case "network request" s → occurs_ignoring_case "network" s.
Proof.
  intros (pre & mid & post & -> & Hmid).
  change (lower "network request") with ("network" +:+ " request")%string in Hmid.
  destruct (lower_split _ _ _ Hmid) as (a & b & -> & Ha & _).
  exists pre, a, (b +:+ post). split; [|done].
  by rewrite !string_app_assoc.
Qed.

Lemma lower_char_idem c : lower_char (lower_char c) = lower_char c.
Proof. destruct c as [[] [] [] [] [] [] [] []]; reflexivity. Qed.

Lemma lower_idem s : lower (lower s) = lower s.
Proof. induction s as [|c s IH]; simpl; [done | by rewrite lower_char_idem, IH]. Qed.

Lemma is_network_error_context cls s pre post :
  is_network_error (Exn cls s) = true →
  is_network_error (Exn cls (pre +:+ s +:+ post)) = true.
Proof.
  rewrite !is_network_error_spec. unfold isTransient_spec. simpl.
  intros [H | [(word & Hin & H) | (Hc & [H | H])]].
  - by left.
  - right; left. exists word. split; [done | by apply occurs_in_context].
  - right; right. split; [done |]. left. by apply occurs_in_context.
  - right; right. split; [done |]. right. by apply occurs_in_context.
Qed.

End ClassifierMore.

(** X6: the test for "network request" in [is_network_error] never decides:
    a text that contains it contains "network", which the second rule
    already accepts for every class.  The only thing the [TypeError] rule
    adds is "fetch". *)
Theorem network_request_test_is_redundant (error : exn) :
  is_network_error error = true ↔ transient_without_network_request error.
Proof.
  rewrite is_network_error_spec.
  unfold isTransient_spec, transient_without_network_request. split.
  - intros [H | [H | (Hc & [H | H])]]; [by left | by right; left | by right; right |].
    right; left. exists "network"%string. split.
    + apply list_elem_of_here.
    + by apply occurs_network_request.
  - intros [H | [H | (Hc & H)]]; [by left | by right; left |].
    right; right. split; [done | by left].
Qed.

(** X7: the answer of [is_network_error] is kept when text is put before or
    after the error text (an error once taken as transient stays so when its
    message is wrapped), and it does not change when the text is
    lower-cased. *)
Theorem classifier_ignores_context_and_case (cls : exc_class) (s pre post : string) :
  (is_network_error (Exn cls s) = true →
   is_network_error (Exn cls (pre +:+ s +:+ post)) = true)
  ∧ is_network_error (Exn cls (Text.lower s)) = is_network_error (Exn cls s).
Proof.
  split; [apply is_network_error_context |].
  unfold is_network_error. simpl. by rewrite lower_idem.
Qed.

(** ** The registry after an invocation *)

Section RegistryFacts.
Variables (p : params) (env : Env).

(** The retry loop writes the entry of the event's channel only. *)
Lemma retry_loop_frame event c' todo : ∀ a w ex w',
  c' ≠ channel_id event → others_keep c' env →
  retry_loop p env event todo a w = (ex, w') →
  last_sent_message_ids w' !! c' = last_sent_message_ids w !! c'.
Proof.
  induction todo as [|todo IH]; intros a w ex w' Hne Hkeep H.
  - simpl in H. by injection H as <- <-.
  - rewrite retry_loop_S in H. cbv zeta in H.
    destruct (env_sleep env _).
    { injection H as <- <-. simpl. by rewrite Hkeep. }
    destruct (env_next_action env _) as [mid|e].
    { injection H as <- <-. destruct mid as [mid|]; simpl.
      - by rewrite lookup_insert_ne, !Hkeep.
      - by rewrite !Hkeep. }
    destruct (is_signal e).
    { injection H as <- <-. simpl. by rewrite !Hkeep. }
    destruct (is_network_error e).
    + rewrite (IH _ _ _ _ Hne Hkeep H). simpl. by rewrite !Hkeep.
    + injection H as <- <-. simpl. by rewrite !Hkeep.
Qed.

(** The two ways of the recovery: straight to the notice, or through the
    recall routine with the snapshot. *)
Lemma recover_cases c snapshot w :
  (nonempty_message_id snapshot = false
   ∧ recover p env c snapshot w = send_error_notice p env c w)
  ∨ (∃ m, snapshot = Some m ∧ nonempty_message_id snapshot = true
       ∧ recover p env c snapshot w
         = (let '(r, w1) :=
              _recall_and_clear_message_id env c m (log_sensitive_info p)
                (recall_retry_attempts p) (recall_retry_delay_base_ms p) w in
            match r with
            | Raised e => (Raised e, w1)
            | Returned _ => send_error_notice p env c w1
            end)).
Proof.
  unfold recover. destruct snapshot as [m|]; [|by left].
  simpl. destruct (String.eqb m EmptyString); [by left |].
  right. exists m. done.
Qed.

(** The registry after the notice, by the answer [send_message] gave. *)
Lemma send_error_notice_registry c w :
  last_sent_message_ids (snd (send_error_notice p env c w))
  = let r := env_other_tasks env (length (trace w)) (last_sent_message_ids w) in
    match env_send_message env (count is_send_message (trace w)) with
    | Returned error_response =>
        match (if truthy error_response then message_id error_response else None) with
        | Some n => <[c := n]> r
        | None => r
        end
    | Raised _ => r
    end.
Proof.
  unfold send_error_notice, await_send_message. cbv zeta.
  destruct (env_send_message env _) as [resp|e].
  - by destruct (if truthy resp then message_id resp else None).
  - by destruct (isinstance_Exception e).
Qed.

Lemma send_error_notice_frame c c' w :
  c' ≠ c → others_keep c' env →
  last_sent_message_ids (snd (send_error_notice p env c w)) !! c'
  = last_sent_message_ids w !! c'.
Proof.
  intros Hne Hkeep. rewrite send_error_notice_registry. cbv zeta.
  destruct (env_send_message env _) as [resp|e]; [|by rewrite Hkeep].
  destruct (if truthy resp then message_id resp else None).
  - by rewrite lookup_insert_ne, Hkeep.
  - by rewrite Hkeep.
Qed.

Lemma recover_frame c c' snapshot w :
  c' ≠ c → others_keep c' env →
  last_sent_message_ids (snd (recover p env c snapshot w)) !! c'
  = last_sent_message_ids w !! c'.
Proof.
  intros Hne Hkeep.
  destruct (recover_cases c snapshot w) as [[_ ->] | (m & _ & _ & ->)].
  - by apply send_error_notice_frame.
  - destruct (_recall_and_clear_message_id env c m (log_sensitive_info p)
                (recall_retry_attempts p) (recall_retry_delay_base_ms p) w)
      as [r w1] eqn:Hrec.
    destruct (recall_general _ _ _ _ _ _ _ _ _ Hrec)
      as (ext & j & _ & _ & _ & _ & _ & _ & _ & Hreg & _).
    assert (Hw1 : last_sent_message_ids w1 !! c' = last_sent_message_ids w !! c').
    { destruct Hreg as [-> | ->]; [done | by apply lookup_delete_ne]. }
    destruct r as [u|e]; simpl; [|done].
    by rewrite send_error_notice_frame.
Qed.

(** All attempts fail transiently: the handler is at the recovery, the
    retries behind it. *)
Lemma exhausted_run event reg N :
  retry_attempts p = Z.of_nat N →
  (∀ i, (i ≤ N)%nat → fails_transiently (env_next_action env i)) →
  (∀ i, (i < N)%nat → env_sleep env i = None) →
  ∃ w,
    trace w = call_next_action event :: retry_trace event (retry_delay_base_ms p) 0 N
    ∧ (∀ c, others_keep c env → last_sent_message_ids w !! c = reg !! c)
    ∧ network_error_handler p env event (start reg)
      = recover p env (channel_id event) (reg !! channel_id event) w.
Proof.
  intros HN Hfail Hsleep.
  destruct (handler_after_failures p env event reg N N HN (le_n N))
    as (w & Ht & Hkeep & _ & Hrun); [intros i Hi; apply Hfail; lia | done |].
  destruct (Hfail N (le_n N)) as (e & He & Hsig & Hnet).
  rewrite He, Hsig, Hnet, Nat.sub_diag in Hrun. simpl in Hrun.
  exists w. by split_and!.
Qed.

Lemma count_recall_trace c m base j : ∀ a,
  count is_send_message (recall_trace c m base a j) = O
  ∧ count is_recall_message (recall_trace c m base a j) = j
  ∧ count is_sleep (recall_trace c m base a j) = j.
Proof.
  induction j as [|j IH]; intros a; simpl; [done |].
  destruct (IH (S a)) as (-> & -> & ->). done.
Qed.

End RegistryFacts.

(** X8: an invocation for one channel never changes the entry of another
    channel: whatever happens, an entry of another channel that the other
    tasks leave alone is after the invocation what it was before. *)
Theorem handler_leaves_other_channels
    (p : params) (env : Env) (event : Event) (reg : gmap string string) (c' : string) :
  c' ≠ channel_id event → others_keep c' env →
  last_sent_message_ids (snd (network_error_handler p env event (start reg))) !! c'
  = reg !! c'.
Proof.
  intros Hne Hkeep. unfold network_error_handler. cbv zeta.
  change (await_next_action env event (start reg))
    with (env_next_action env O, suspend env (call_next_action event) (start reg)).
  cbv iota beta.
  set (w1 := suspend env (call_next_action event) (start reg)).
  assert (H1 : last_sent_message_ids w1 !! c' = reg !! c')
    by (unfold w1; simpl; by rewrite Hkeep).
  destruct (env_next_action env O) as [mid|e].
  { destruct mid; simpl; [by rewrite lookup_insert_ne |]; done. }
  destruct (is_signal e); [done |].
  destruct (is_network_error e); [|done].
  destruct (retry_loop p env event (Z.to_nat (retry_attempts p)) 0 w1)
    as [ex w2] eqn:Hloop.
  pose proof (retry_loop_frame p env event c' _ _ _ _ _ Hne Hkeep Hloop) as H2.
  destruct ex as [out|]; simpl; [congruence |].
  rewrite recover_frame by done. congruence.
Qed.

Lemma handler_leaves_other_channels_witness :
  last_sent_message_ids
    (snd (network_error_handler (Params 1 1000 "sorry" false 1 500)
            {| env_next_action := λ _, Raised (Exn NetworkError "link down");
               env_sleep := λ _, None;
               env_recall_message := λ _, Returned tt;
               env_send_message := λ _, Returned (Response true (Some "n1"));
               env_other_tasks := λ _ r, <["general" := "z"]> r |}
            {| channel_id := "general" |}
            (start (<["lobby" := "m3"]> {[ "general" := "m0" ]}))))
    !! "lobby" = Some "m3".
Proof.
  refine (handler_leaves_other_channels _ _ _ _ "lobby" _ _).
  - discriminate.
  - intros i r. simpl. by rewrite lookup_insert_ne.
Defined.

(** X9: what the channel's entry is after the retries are exhausted (no
    signal reaching the recall routine).  When the notice comes back with a
    message id, that id is the entry.  When the notice leaves no id, the
    entry is what the recall left: absent when the recall call succeeded,
    and still the old id when every recall call failed. *)
Theorem registry_after_recovery
    (p : params) (env : Env) (event : Event) (reg : gmap string string) (N : nat) :
  retry_attempts p = Z.of_nat N →
  (∀ i, (i ≤ N)%nat → fails_transiently (env_next_action env i)) →
  recall_undisturbed env →
  let c := channel_id event in
  let after := last_sent_message_ids (snd (network_error_handler p env event (start reg))) in
  (∀ response n,
     env_send_message env O = Returned response →
     truthy response = true → message_id response = Some n →
     after !! c = Some n)
  ∧ (∀ m u,
       reg !! c = Some m → m ≠ EmptyString → others_keep c env →
       0 ≤ recall_retry_attempts p →
       env_recall_message env O = Returned u →
       notice_without_id (env_send_message env O) →
       after !! c = None)
  ∧ (∀ m,
       reg !! c = Some m → m ≠ EmptyString → others_keep c env →
       0 ≤ recall_retry_attempts p →
       (∀ i, recall_fails (env_recall_message env i)) →
       notice_without_id (env_send_message env O) →
       after !! c = Some m).
Proof.
  intros HN Hfail [Hnr Hns] c after.
  destruct (exhausted_run p env event reg N HN Hfail) as (w & Ht & Hkeep & Hrun);
    [intros i _; apply Hns |].
  assert (Hsend0 : count is_send_message (trace w) = O).
  { rewrite Ht. simpl.
    by destruct (count_retry_trace event (retry_delay_base_ms p) N O) as (_ & _ & _ & -> & _). }
  assert (Hrecall0 : count is_recall_message (trace w) = O).
  { rewrite Ht. simpl.
    by destruct (count_retry_trace event (retry_delay_base_ms p) N O) as (_ & _ & -> & _ & _). }
  subst after. rewrite Hrun. fold c. split_and!.
  - intros response n Hresp Htruthy Hid.
    destruct (recover_cases p env c (reg !! c) w) as [[_ ->] | (m & _ & _ & ->)].
    + rewrite send_error_notice_registry. cbv zeta.
      rewrite Hsend0, Hresp, Htruthy, Hid. apply lookup_insert_eq.
    + destruct (_recall_and_clear_message_id env c m (log_sensitive_info p)
                  (recall_retry_attempts p) (recall_retry_delay_base_ms p) w)
        as [r w1] eqn:Hrec.
      destruct (recall_general _ _ _ _ _ _ _ _ _ Hrec)
        as (ext & j & Ht1 & _ & Hs1 & _ & _ & _ & _ & _ & Hraise).
      destruct r as [u|e].
      * rewrite send_error_notice_registry. cbv zeta.
        rewrite Ht1, count_app. simpl. rewrite Hsend0, Hs1. simpl.
        rewrite Hresp, Htruthy, Hid. apply lookup_insert_eq.
      * exfalso. destruct (Hraise e eq_refl) as (Hsig & [[i Hi] | (i & s & Hi & _)]).
        -- apply Hnr in Hi. congruence.
        -- rewrite Hns in Hi. discriminate.
  - intros m u Hm Hne Hc HR Hok Hnotice.
    destruct (recover_cases p env c (reg !! c) w) as [[Hempty _] | (m' & Hm' & _ & ->)].
    { rewrite Hm in Hempty. simpl in Hempty.
      destruct (String.eqb_spec m EmptyString); [done | discriminate]. }
    assert (m' = m) as -> by congruence.
    unfold _recall_and_clear_message_id. cbv zeta.
    simpl (last_sent_message_ids (suspend_locked _ _)).
    rewrite bool_decide_eq_true_2 by (rewrite (Hkeep c Hc); done).
    replace (Z.to_nat (recall_retry_attempts p + 1))
      with (S (Z.to_nat (recall_retry_attempts p))) by lia.
    rewrite recall_loop_S. cbv zeta.
    simpl (trace (suspend_locked _ _)). rewrite count_app, Hrecall0. simpl (count _ [_]).
    simpl (0 + 0)%nat. rewrite Hok.
    rewrite send_error_notice_registry. cbv zeta.
    simpl (trace _). rewrite !count_app, Hsend0. simpl (count _ _). simpl (0 + 0 + 0)%nat.
    unfold notice_without_id in Hnotice.
    destruct (env_send_message env O) as [resp|e].
    + rewrite Hnotice. rewrite Hc. simpl. apply lookup_delete_eq.
    + rewrite Hc. simpl. apply lookup_delete_eq.
  - intros m Hm Hne Hc HR Hallfail Hnotice.
    destruct (recover_cases p env c (reg !! c) w) as [[Hempty _] | (m' & Hm' & _ & ->)].
    { rewrite Hm in Hempty. simpl in Hempty.
      destruct (String.eqb_spec m EmptyString); [done | discriminate]. }
    assert (m' = m) as -> by congruence.
    unfold _recall_and_clear_message_id. cbv zeta.
    simpl (last_sent_message_ids (suspend_locked _ _)).
    rewrite bool_decide_eq_true_2 by (rewrite (Hkeep c Hc); done).
    replace (Z.to_nat (recall_retry_attempts p + 1))
      with (S (Z.to_nat (recall_retry_attempts p))) by lia.
    rewrite recall_loop_failures; [| lia | intros i _; apply Hallfail | intros i _; apply Hns].
    rewrite send_error_notice_registry. cbv zeta.
    simpl (trace _). simpl (last_sent_message_ids _).
    rewrite !count_app, Hsend0.
    destruct (count_recall_trace c m (recall_retry_delay_base_ms p)
                (Z.to_nat (recall_retry_attempts p)) O) as (-> & _ & _).
    simpl (count _ _). simpl (_ + _)%nat.
    unfold notice_without_id in Hnotice.
    destruct (env_send_message env O) as [resp|e].
    + rewrite Hnotice. rewrite Hc. rewrite (Hkeep c Hc). done.
    + rewrite Hc. rewrite (Hkeep c Hc). done.
Qed.

Lemma registry_after_recovery_witness :
  last_sent_message_ids
    (snd (network_error_handler (Params 1 1000 "sorry" false 1 500)
            {| env_next_action := λ _, Raised (Exn NetworkError "link down");
               env_sleep := λ _, None;
               env_recall_message := λ _, Raised (Exn OtherException "gone");
               env_send_message := λ _, Raised (Exn NetworkError "still down");
               env_other_tasks := λ _ r, r |}
            {| channel_id := "general" |} (start {[ "general" := "m0" ]})))
    !! "general" = Some "m0".
Proof.
  refine (proj2 (proj2 (registry_after_recovery (Params 1 1000 "sorry" false 1 500)
                          _ {| channel_id := "general" |} {[ "general" := "m0" ]} 1
                          eq_refl _ _)) "m0" _ _ _ _ _ _).
  - intros i _. eexists; split_and!; [reflexivity | reflexivity | vm_compute; reflexivity].
  - split; [|done]. intros i e [= <-]. reflexivity.
  - reflexivity.
  - discriminate.
  - by intros i r.
  - simpl. lia.
  - intros i. eexists. split; reflexivity.
  - reflexivity.
Defined.

(** ** The recall routine, call by call *)

Section RecallMore.
Variables (env : Env) (c m : string) (R : Z) (base : Q).

(** [j] failed recall calls in a row, each followed by its sleep: the loop
    is [j] iterations further. *)
Lemma recall_loop_skip j : ∀ todo a w,
  Z.of_nat (a + j) ≤ R →
  (∀ i, (i < j)%nat →
     recall_fails (env_recall_message env (count is_recall_message (trace w) + i))) →
  (∀ i, (i < j)%nat → env_sleep env (count is_sleep (trace w) + i) = None) →
  recall_loop env c m R base (j + todo) a w
  = recall_loop env c m R base todo (a + j)
      {| last_sent_message_ids := last_sent_message_ids w;
         trace := trace w ++ recall_trace c m base a j |}.
Proof.
  induction j as [|j IH]; intros todo a w HR Hfail Hsleep.
  - destruct w as [reg t]. simpl. by rewrite Nat.add_0_r, app_nil_r.
  - change (S j + todo)%nat with (S (j + todo)). rewrite recall_loop_S. cbv zeta.
    destruct (Hfail O ltac:(lia)) as (e & He & Hex).
    rewrite Nat.add_0_r in He. rewrite He, Hex.
    rewrite (proj2 (Z.ltb_lt _ _)) by lia.
    pose proof (Hsleep O ltac:(lia)) as Hs0. rewrite Nat.add_0_r in Hs0. rewrite Hs0.
    rewrite IH.
    + f_equal; [lia |]. f_equal. simpl. by rewrite <- !app_assoc.
    + lia.
    + intros i Hi. simpl. rewrite !count_app. simpl.
      replace (count is_recall_message (trace w) + 1 + 0 + i)%nat
        with (count is_recall_message (trace w) + S i)%nat by lia.
      apply Hfail. lia.
    + intros i Hi. simpl. rewrite !count_app. simpl.
      replace (count is_sleep (trace w) + 0 + 1 + i)%nat
        with (count is_sleep (trace w) + S i)%nat by lia.
      apply Hsleep. lia.
Qed.

End RecallMore.

(** X10: when the entry still is the target and the recall call succeeds at
    its call number [k ≤ recall_retry_attempts], after [k] failures, the
    routine has made exactly these [k + 1] calls, slept the backoff of index
    [0 .. k-1] after the failures, removed the entry, and stopped: nothing
    follows the successful call. *)
Theorem recall_succeeds_after_failures
    (env : Env) (c m : string) (lsi : bool) (R : Z) (base : Q) (w : world) (k : nat) :
  last_sent_message_ids w !! c = Some m →
  Z.of_nat k ≤ R →
  (∀ i, (i < k)%nat →
     recall_fails (env_recall_message env (count is_recall_message (trace w) + i))) →
  (∀ i, (i < k)%nat → env_sleep env (count is_sleep (trace w) + i) = None) →
  (∃ u, env_recall_message env (count is_recall_message (trace w) + k) = Returned u) →
  _recall_and_clear_message_id env c m lsi R base w
  = (Returned tt,
     {| last_sent_message_ids := delete c (last_sent_message_ids w);
        trace := trace w ++ call_recall_and_clear_message_id c m
                 :: recall_trace c m base 0 k ++ [call_recall_message c m] |}).
Proof.
  intros Hcur Hk Hfail Hsleep (u & Hok).
  unfold _recall_and_clear_message_id. cbv zeta.
  simpl (last_sent_message_ids (suspend_locked _ _)).
  rewrite bool_decide_eq_true_2 by done.
  replace (Z.to_nat (R + 1)) with (k + S (Z.to_nat R - k))%nat by lia.
  rewrite recall_loop_skip.
  - rewrite recall_loop_S. cbv zeta. simpl (trace _).
    rewrite !count_app.
    destruct (count_recall_trace c m base k O) as (_ & -> & _).
    simpl (count _ [_]). rewrite Nat.add_0_r, Hok.
    unfold registry_pop, suspend_locked. simpl. by rewrite <- !app_assoc.
  - simpl. lia.
  - intros i Hi. simpl. rewrite count_app. simpl. rewrite Nat.add_0_r. by apply Hfail.
  - intros i Hi. simpl. rewrite count_app. simpl. rewrite Nat.add_0_r. by apply Hsleep.
Qed.

Lemma recall_succeeds_after_failures_witness :
  _recall_and_clear_message_id
    {| env_next_action := λ _, Returned None;
       env_sleep := λ _, None;
       env_recall_message := λ i,
         if (i <? 1)%nat then Raised (Exn OtherException "busy") else Returned tt;
       env_send_message := λ _, Returned (Response false None);
       env_other_tasks := λ _ r, r |}
    "general" "m0" false 2 500 (start {[ "general" := "m0" ]})
  = (Returned tt,
     {| last_sent_message_ids := delete "general" {[ "general" := "m0" ]};
        trace := [ call_recall_and_clear_message_id "general" "m0";
                   call_recall_message "general" "m0";
                   call_sleep (backoff_delay 500 0);
                   call_recall_message "general" "m0" ] |}).
Proof.
  refine (recall_succeeds_after_failures _ "general" "m0" false 2 500
            (start {[ "general" := "m0" ]}) 1 _ _ _ _ _).
  - reflexivity.
  - lia.
  - intros i Hi. destruct i as [|i]; [|lia]. eexists. split; reflexivity.
  - done.
  - by exists tt.
Defined.

(** ** The sample inner action *)

Section SampleActionFacts.
Variable send_message : nat → string → string → result exn response.

(** One call takes one from the counter, whether it raises or sends. *)
Lemma action_event send event :
  snd (my_actual_send_message_action send event)
  = {| mock_channel_id := mock_channel_id event;
       test_fail_count := (λ n, n - 1) <$> test_fail_count event |}.
Proof.
  unfold my_actual_send_message_action, send_progress_message.
  destruct event as [ch [n|]]; simpl.
  - destruct (0 <=? n - 1); [done |]. by destruct (send ch _).
  - by destruct (send ch _).
Qed.

Lemma event_after_calls_spec i event :
  event_after_calls send_message i event
  = {| mock_channel_id := mock_channel_id event;
       test_fail_count := (λ n, n - Z.of_nat i) <$> test_fail_count event |}.
Proof.
  induction i as [|i IH].
  - destruct event as [ch [n|]]; simpl; [|done]. f_equal. f_equal. lia.
  - cbn [event_after_calls]. rewrite action_event, IH. simpl. f_equal.
    destruct (test_fail_count event); simpl; [|done]. f_equal. lia.
Qed.

(** The call number [i] raises the hook's error while the counter lasts and
    sends the progress message afterwards. *)
Lemma nth_call_cases event i :
  nth_call send_message event i
  = match test_fail_count event with
    | Some f =>
        if Z.of_nat i <? f
        then Raised (Exn NetworkError (hook_message (f - Z.of_nat i - 1)))
        else fst (send_progress_message (send_message i) event)
    | None => fst (send_progress_message (send_message i) event)
    end.
Proof.
  unfold nth_call. rewrite event_after_calls_spec.
  unfold my_actual_send_message_action, send_progress_message.
  destruct event as [ch [f|]]; simpl.
  - destruct (Z.ltb_spec (Z.of_nat i) f) as [Hlt | Hge].
    + rewrite (proj2 (Z.leb_le _ _)) by lia. done.
    + rewrite (proj2 (Z.leb_gt _ _)) by lia. by destruct (send_message i ch _).
  - by destruct (send_message i ch _).
Qed.

Lemma hook_error_is_transient text :
  fails_transiently (Raised (Exn NetworkError text)).
Proof. eexists. split_and!; reflexivity. Qed.

End SampleActionFacts.

(** X11: the test hook of [my_actual_send_message_action] counts down on the
    event object itself, which the handler passes again at every retry.  On
    an event created with [test_fail_count = f], exactly the calls number
    [0 .. f-1] raise a [NetworkError], which the classifier takes as
    transient; every later call, and every call on an event without the
    attribute, sends the progress message and returns the id of the
    response when it is truthy and has one, [None] otherwise, or raises what
    [send_message] raised.  Each call, failing or not, takes one from the
    counter. *)
Theorem sample_action_fails_first_calls
    (send_message : nat → string → string → result exn response)
    (event : MockEvent) (i : nat) :
  let outcome := nth_call send_message event i in
  let progress :=
    match send_message i (mock_channel_id event) "操作进行中..." with
    | Returned response =>
        Returned (if truthy response then message_id response else None)
    | Raised e => Raised e
    end in
  (∀ f, test_fail_count event = Some f → Z.of_nat i < f →
     outcome = Raised (Exn NetworkError (hook_message (f - Z.of_nat i - 1)))
     ∧ fails_transiently outcome)
  ∧ (∀ f, test_fail_count event = Some f → f ≤ Z.of_nat i → outcome = progress)
  ∧ (test_fail_count event = None → outcome = progress)
  ∧ test_fail_count (event_after_calls send_message (S i) event)
    = (λ n, n - Z.of_nat (S i)) <$> test_fail_count event.
Proof.
  intros outcome progress.
  assert (Hprogress : fst (send_progress_message (send_message i) event) = progress).
  { unfold send_progress_message, progress. by destruct (send_message i _ _). }
  subst outcome. rewrite nth_call_cases, Hprogress. split_and!.
  - intros f -> Hlt. rewrite (proj2 (Z.ltb_lt _ _)) by done.
    split; [done | apply hook_error_is_transient].
  - intros f -> Hge. by rewrite (proj2 (Z.ltb_ge _ _)).
  - by intros ->.
  - by rewrite event_after_calls_spec.
Qed.

(** X12: the handler around the sample action, on an event created with
    [test_fail_count = f].  When [f ≤ retry_attempts], the handler makes [f]
    failing calls and the call number [f] sends the progress message: if
    that returns, the handler returns after [f] retries, without recall or
    notice, and the id the response carries is the channel's entry; so
    [test_fail_count = 3] under the default three retries ends in success,
    not in a recall.  When [f > retry_attempts] every attempt fails, the
    progress message is never sent, and the handler goes through the
    recovery: the recall routine when the snapshot is a non-empty id, and the
    notice once. *)
Theorem handler_with_sample_action
    (p : params) (env : Env)
    (send_message : nat → string → string → result exn response)
    (event : MockEvent) (reg : gmap string string) (N f : nat) :
  retry_attempts p = Z.of_nat N →
  test_fail_count event = Some (Z.of_nat f) →
  let c := mock_channel_id event in
  let run := network_error_handler p (with_sample_action env send_message event)
               (handler_event event) (start reg) in
  ((f ≤ N)%nat → (∀ i, (i < f)%nat → env_sleep env i = None) →
   ∀ response, send_message f c "操作进行中..." = Returned response →
     fst run = Returned tt
     ∧ trace (snd run)
       = call_next_action (handler_event event)
         :: retry_trace (handler_event event) (retry_delay_base_ms p) 0 f
     ∧ (∀ n, truthy response = true → message_id response = Some n →
          last_sent_message_ids (snd run) !! c = Some n)
     ∧ ((if truthy response then message_id response else None) = None →
        others_keep c env →
        last_sent_message_ids (snd run) !! c = reg !! c))
  ∧ ((N < f)%nat → recall_undisturbed env →
     (∀ i, (i ≤ N)%nat →
        env_next_action (with_sample_action env send_message event) i
        = Raised (Exn NetworkError (hook_message (Z.of_nat f - Z.of_nat i - 1))))
     ∧ count is_next_action (trace (snd run)) = S N
     ∧ count is_recall_and_clear (trace (snd run))
       = (if nonempty_message_id (reg !! c) then 1 else 0)%nat
     ∧ count is_send_message (trace (snd run)) = 1%nat
     ∧ (send_undisturbed env → fst run = Returned tt)).
Proof.
  intros HN Hf c run.
  set (env' := with_sample_action env send_message event).
  assert (Hcall : ∀ i, env_next_action env' i = nth_call send_message event i) by done.
  assert (Hfails : ∀ i, (i < f)%nat →
            env_next_action env' i
            = Raised (Exn NetworkError (hook_message (Z.of_nat f - Z.of_nat i - 1)))).
  { intros i Hi. rewrite Hcall, nth_call_cases, Hf.
    by rewrite (proj2 (Z.ltb_lt _ _)) by lia. }
  split.
  - intros Hle Hsleep response Hresp.
    destruct (handler_after_failures p env' (handler_event event) reg N f HN Hle)
      as (w & Ht & Hkeep & _ & Hrun).
    { intros i Hi. rewrite (Hfails i Hi). apply hook_error_is_transient. }
    { done. }
    rewrite Hcall, nth_call_cases, Hf in Hrun.
    rewrite (proj2 (Z.ltb_ge _ _)) in Hrun by lia.
    unfold send_progress_message in Hrun. fold c in Hrun. rewrite Hresp in Hrun.
    simpl in Hrun. subst run env'. rewrite Hrun. simpl. split_and!; try done.
    + destruct (if truthy response then message_id response else None); by simpl.
    + intros n -> ->. simpl. apply lookup_insert_eq.
    + intros -> Hc. simpl. by apply Hkeep.
  - intros Hlt [Hnr Hns].
    assert (Hall : ∀ i, (i ≤ N)%nat →
              env_next_action env' i
              = Raised (Exn NetworkError (hook_message (Z.of_nat f - Z.of_nat i - 1))))
      by (intros i Hi; apply Hfails; lia).
    destruct (exhausted_run p env' (handler_event event) reg N HN)
      as (w & Ht & _ & Hrun).
    { intros i Hi. rewrite (Hall i Hi). apply hook_error_is_transient. }
    { intros i _. apply Hns. }
    destruct (recover p env' (channel_id (handler_event event))
                (reg !! channel_id (handler_event event)) w) as [r w'] eqn:Hrec.
    destruct (recover_general _ _ _ _ _ _ _ Hrec)
      as (ext & j & Ht' & G1 & G2 & G3 & G4 & G5 & G6 & G7 & G8 & G9).
    destruct (G8 (conj Hnr Hns)) as (Hone & _).
    subst run env'. rewrite Hrun. simpl. rewrite Ht', Ht.
    change (call_next_action (handler_event event)
            :: retry_trace (handler_event event) (retry_delay_base_ms p) 0 N)
      with ([call_next_action (handler_event event)]
            ++ retry_trace (handler_event event) (retry_delay_base_ms p) 0 N).
    rewrite !count_app.
    destruct (count_retry_trace (handler_event event) (retry_delay_base_ms p) N O)
      as (-> & _ & _ & -> & ->).
    simpl. rewrite G1, G2, Hone. split_and!; try done; try lia.
    intros Hsend. by apply G9.
Qed.

Lemma handler_with_sample_action_witness :
  let p := Params 3 (inject_Z 1000) "抱歉，发生网络错误，消息已撤回。" false 2
             (inject_Z 500) in
  let event := {| mock_channel_id := "test_channel_1"; test_fail_count := Some 3 |} in
  let reg : gmap string string := {[ "test_channel_1" := "m0" ]} in
  let env := {| env_next_action := λ _, Returned None;
                env_sleep := λ _, None;
                env_recall_message := λ _, Returned tt;
                env_send_message := λ _, Returned (Response true (Some "n1"));
                env_other_tasks := λ _ r, r |} in
  let send := λ (_ : nat) (_ _ : string), Returned (Response true (Some "m4")) in
  let run := network_error_handler p (with_sample_action env send event)
               (handler_event event) (start reg) in
  fst run = Returned tt
  ∧ count is_recall_and_clear (trace (snd run)) = O
  ∧ last_sent_message_ids (snd run) !! "test_channel_1" = Some "m4".
Proof.
  intros p event reg env send run.
  destruct (proj1 (handler_with_sample_action p env send event reg 3 3 eq_refl eq_refl)
              (le_n 3) (λ i _, eq_refl) (Response true (Some "m4")) eq_refl)
    as (H1 & H2 & H3 & _).
  split_and!; [exact H1 | | exact (H3 "m4" eq_refl eq_refl)].
  subst run. rewrite H2. vm_compute. reflexivity.
Defined.


(** ** Success, and the race with a newer message *)

Section RaceFacts.
Variables (p : params) (env : Env) (event : Event).

(** [k] transient failures in a row, with the registry as the other tasks
    leave it: every failed retry is two suspensions. *)
Lemma retry_loop_failures_exact k : ∀ todo a w,
  (∀ i, (i < k)%nat → env_sleep env (count is_sleep (trace w) + i) = None) →
  (∀ i, (i < k)%nat →
     fails_transiently (env_next_action env (count is_next_action (trace w) + i))) →
  retry_loop p env event (k + todo) a w
  = retry_loop p env event todo (a + k)
      {| last_sent_message_ids :=
           others_run env (length (trace w)) (2 * k) (last_sent_message_ids w);
         trace := trace w ++ retry_trace event (retry_delay_base_ms p) a k |}.
Proof.
  induction k as [|k IH]; intros todo a w Hs Hn.
  - destruct w as [reg t]. simpl. by rewrite Nat.add_0_r, app_nil_r.
  - change (S k + todo)%nat with (S (k + todo)). rewrite retry_loop_S. cbv zeta.
    pose proof (Hs O ltac:(lia)) as Hs0. rewrite Nat.add_0_r in Hs0. rewrite Hs0.
    destruct (Hn O ltac:(lia)) as (e & He & Hsig & Hnet).
    rewrite Nat.add_0_r in He. rewrite He, Hsig, Hnet.
    rewrite IH.
    + f_equal; [lia |]. replace (2 * S k)%nat with (S (S (2 * k))) by lia.
      simpl. rewrite !length_app. simpl.
      replace (length (trace w) + 1 + 1)%nat with (S (S (length (trace w)))) by lia.
      replace (length (trace w) + 1)%nat with (S (length (trace w))) by lia.
      f_equal. by rewrite <- !app_assoc.
    + intros i Hi. simpl. rewrite !count_app. simpl.
      replace (count is_sleep (trace w) + 1 + 0 + i)%nat
        with (count is_sleep (trace w) + S i)%nat by lia.
      apply Hs. lia.
    + intros i Hi. simpl. rewrite !count_app. simpl.
      replace (count is_next_action (trace w) + 0 + 1 + i)%nat
        with (count is_next_action (trace w) + S i)%nat by lia.
      apply Hn. lia.
Qed.

(** All attempts fail transiently: the world in which the recovery starts. *)
Lemma exhausted_run_exact reg N :
  retry_attempts p = Z.of_nat N →
  (∀ i, (i ≤ N)%nat → fails_transiently (env_next_action env i)) →
  (∀ i, (i < N)%nat → env_sleep env i = None) →
  network_error_handler p env event (start reg)
  = recover p env (channel_id event) (reg !! channel_id event)
      {| last_sent_message_ids := others_run env 0 (2 * N + 1) reg;
         trace := call_next_action event
                  :: retry_trace event (retry_delay_base_ms p) 0 N |}.
Proof.
  intros HN Hfail Hsleep. unfold network_error_handler. cbv zeta.
  rewrite HN, Nat2Z.id.
  change (await_next_action env event (start reg))
    with (env_next_action env O, suspend env (call_next_action event) (start reg)).
  cbv iota beta.
  destruct (Hfail O ltac:(lia)) as (e & He & Hsig & Hnet). rewrite He, Hsig, Hnet.
  replace N with (N + 0)%nat at 1 by lia.
  rewrite retry_loop_failures_exact.
  - simpl. replace (N + (N + 0) + 1)%nat with (S (N + (N + 0))) by lia. done.
  - intros i Hi. simpl. by apply Hsleep.
  - intros i Hi. simpl. apply Hfail. lia.
Qed.

End RaceFacts.

(** X13: the ordinary path.  When the call number [k ≤ retry_attempts] of
    the inner action returns a message id, after [k] transient failures
    ([k = 0]: at once), the handler returns, the trace is that of the initial
    call and [k] retries with nothing after it, and the id is the channel's
    entry; an id registered before is overwritten, not recalled. *)
Theorem success_records_message_id
    (p : params) (env : Env) (event : Event) (reg : gmap string string) (N k : nat)
    (m : string) :
  retry_attempts p = Z.of_nat N → (k ≤ N)%nat →
  (∀ i, (i < k)%nat → fails_transiently (env_next_action env i)) →
  (∀ i, (i < k)%nat → env_sleep env i = None) →
  env_next_action env k = Returned (Some m) →
  let run := network_error_handler p env event (start reg) in
  fst run = Returned tt
  ∧ last_sent_message_ids (snd run) !! channel_id event = Some m
  ∧ trace (snd run)
    = call_next_action event :: retry_trace event (retry_delay_base_ms p) 0 k
  ∧ count is_recall_and_clear (trace (snd run)) = O
  ∧ count is_recall_message (trace (snd run)) = O
  ∧ count is_send_message (trace (snd run)) = O.
Proof.
  intros HN Hk Hfail Hsleep Hok run.
  destruct (handler_after_failures p env event reg N k HN Hk Hfail Hsleep)
    as (w & Ht & _ & _ & Hrun).
  rewrite Hok in Hrun. subst run. rewrite Hrun. simpl. rewrite Ht. simpl.
  destruct (count_retry_trace event (retry_delay_base_ms p) k O) as (_ & _ & -> & -> & ->).
  split_and!; try done. apply lookup_insert_eq.
Qed.

Lemma success_records_message_id_witness :
  let run := network_error_handler (Params 3 1000 "sorry" false 2 500)
               {| env_next_action := λ _, Returned (Some "m1");
                  env_sleep := λ _, None;
                  env_recall_message := λ _, Returned tt;
                  env_send_message := λ _, Returned (Response true (Some "n1"));
                  env_other_tasks := λ _ r, r |}
               {| channel_id := "general" |} (start {[ "general" := "m0" ]}) in
  fst run = Returned tt
  ∧ last_sent_message_ids (snd run) !! "general" = Some "m1"
  ∧ trace (snd run) = [call_next_action {| channel_id := "general" |}].
Proof.
  intros run.
  destruct (success_records_message_id (Params 3 1000 "sorry" false 2 500)
              {| env_next_action := λ _, Returned (Some "m1");
                 env_sleep := λ _, None;
                 env_recall_message := λ _, Returned tt;
                 env_send_message := λ _, Returned (Response true (Some "n1"));
                 env_other_tasks := λ _ r, r |}
              {| channel_id := "general" |} {[ "general" := "m0" ]} 3 0 "m1"
              eq_refl ltac:(lia) ltac:(intros; lia) ltac:(intros; lia) eq_refl)
    as (H1 & H2 & H3 & _).
  by split_and!.
Defined.

(** X14: the recall target is the id registered when the invocation began.
    If, when the retries are exhausted, the other tasks have left another
    entry for the channel (a newer message), the recall routine is entered
    with the old id, finds the entry changed and makes no [recall_message]
    call; the notice follows at once, and when it leaves no id the handler
    returns with the registry as the other tasks leave it. *)
Theorem newer_entry_is_not_recalled
    (p : params) (env : Env) (event : Event) (reg : gmap string string) (N : nat)
    (m : string) :
  retry_attempts p = Z.of_nat N →
  (∀ i, (i ≤ N)%nat → fails_transiently (env_next_action env i)) →
  (∀ i, (i < N)%nat → env_sleep env i = None) →
  let c := channel_id event in
  let left := others_run env 0 (2 * N + 1) reg in
  reg !! c = Some m → m ≠ EmptyString → left !! c ≠ Some m →
  let run := network_error_handler p env event (start reg) in
  trace (snd run)
  = call_next_action event :: retry_trace event (retry_delay_base_ms p) 0 N
    ++ [call_recall_and_clear_message_id c m;
        call_send_message c (error_message_text p)]
  ∧ count is_recall_message (trace (snd run)) = O
  ∧ (notice_without_id (env_send_message env O) →
     fst run = Returned tt
     ∧ last_sent_message_ids (snd run) = env_other_tasks env (2 * N + 2) left).
Proof.
  intros HN Hfail Hsleep c left Hm Hne Hleft run.
  subst run. rewrite (exhausted_run_exact p env event reg N HN Hfail Hsleep).
  fold c left.
  destruct (recover_cases p env c (reg !! c)
              {| last_sent_message_ids := left;
                 trace := call_next_action event
                          :: retry_trace event (retry_delay_base_ms p) 0 N |})
    as [[Hempty _] | (m' & Hm' & _ & ->)].
  { rewrite Hm in Hempty. simpl in Hempty.
    destruct (String.eqb_spec m EmptyString); [done | discriminate]. }
  assert (m' = m) as -> by congruence.
  unfold _recall_and_clear_message_id. cbv zeta.
  simpl (last_sent_message_ids (suspend_locked _ _)).
  rewrite bool_decide_eq_false_2 by done.
  destruct (count_retry_trace event (retry_delay_base_ms p) N O)
    as (Hc1 & Hc2 & Hc3 & Hc4 & Hc5).
  assert (Hlen : ∀ a, length (retry_trace event (retry_delay_base_ms p) a N) = (2 * N)%nat).
  { clear. induction N as [|n IH]; intros a; simpl; [done |]. rewrite IH. lia. }
  set (w0 := suspend_locked (call_recall_and_clear_message_id c m)
               {| last_sent_message_ids := left;
                  trace := call_next_action event
                           :: retry_trace event (retry_delay_base_ms p) 0 N |}).
  assert (Ht0 : trace w0 = call_next_action event
                           :: retry_trace event (retry_delay_base_ms p) 0 N
                              ++ [call_recall_and_clear_message_id c m]) by done.
  assert (Hidx : count is_send_message (trace w0) = O).
  { rewrite Ht0. simpl. by rewrite count_app, Hc4. }
  assert (Hlen0 : length (trace w0) = (2 * N + 2)%nat).
  { rewrite Ht0. simpl. rewrite length_app, Hlen. simpl. lia. }
  cbv iota beta.
  destruct (send_error_notice_general p env c w0) as (w2 & Hw2 & Ht2 & _ & _).
  rewrite Hw2, Ht2, Ht0. split_and!.
  - simpl. by rewrite <- app_assoc.
  - simpl. by rewrite !count_app, Hc3.
  - intros Hnotice. split.
    + unfold send_error_notice, await_send_message. rewrite Hidx.
      unfold notice_without_id in Hnotice.
      destruct (env_send_message env O) as [resp|e].
      * by rewrite Hnotice.
      * by rewrite Hnotice.
    + rewrite <- Hw2, send_error_notice_registry. cbv zeta. rewrite Hidx, Hlen0.
      unfold notice_without_id in Hnotice.
      destruct (env_send_message env O) as [resp|e]; [by rewrite Hnotice | done].
Qed.

Lemma newer_entry_is_not_recalled_witness :
  count is_recall_message
    (trace (snd (network_error_handler (Params 1 1000 "sorry" false 2 500)
                   {| env_next_action := λ _, Raised (Exn NetworkError "link down");
                      env_sleep := λ _, None;
                      env_recall_message := λ _, Returned tt;
                      env_send_message := λ _, Returned (Response true None);
                      env_other_tasks := λ i r,
                        if (i =? 1)%nat then <["general" := "m5"]> r else r |}
                   {| channel_id := "general" |} (start {[ "general" := "m0" ]}))))
  = O.
Proof.
  refine (proj1 (proj2 (newer_entry_is_not_recalled (Params 1 1000 "sorry" false 2 500)
                          _ {| channel_id := "general" |} {[ "general" := "m0" ]} 1 "m0"
                          eq_refl _ _ _ _ _))).
  - intros i _. eexists; split_and!; [reflexivity | reflexivity | vm_compute; reflexivity].
  - done.
  - reflexivity.
  - discriminate.
  - vm_compute. discriminate.
Defined.

(** ** The entry is cleared only by a confirmed recall *)

Section ClearFacts.
Variables (env : Env) (c m : string) (R : Z) (base : Q).

(** Either no recall call of the loop succeeded and the registry is as it
    was, or the last call succeeded and the entry is removed. *)
Lemma recall_loop_dichotomy todo : ∀ a w r w',
  recall_loop env c m R base todo a w = (r, w') →
  (last_sent_message_ids w' = last_sent_message_ids w
   ∧ ∀ i, (count is_recall_message (trace w) ≤ i
           < count is_recall_message (trace w'))%nat →
          ∃ e, env_recall_message env i = Raised e)
  ∨ (r = Returned tt
     ∧ last_sent_message_ids w' = delete c (last_sent_message_ids w)
     ∧ (count is_recall_message (trace w) < count is_recall_message (trace w'))%nat
     ∧ ∃ u, env_recall_message env (count is_recall_message (trace w') - 1) = Returned u).
Proof.
  induction todo as [|todo IH]; intros a w r w' H.
  - simpl in H. injection H as <- <-. left. split; [done |]. intros i Hi. lia.
  - rewrite recall_loop_S in H. cbv zeta in H.
    destruct (env_recall_message env (count is_recall_message (trace w))) as [u|e] eqn:Hr.
    { injection H as <- <-. right. simpl. rewrite count_app. simpl.
      split_and!; try done; [lia |].
      exists u. rewrite <- Hr. f_equal. lia. }
    assert (Hstop : ∀ w1 : world,
              last_sent_message_ids w1 = last_sent_message_ids w →
              count is_recall_message (trace w1)
              = S (count is_recall_message (trace w)) →
              last_sent_message_ids w1 = last_sent_message_ids w
              ∧ ∀ i, (count is_recall_message (trace w) ≤ i
                      < count is_recall_message (trace w1))%nat →
                     ∃ e, env_recall_message env i = Raised e).
    { intros w1 Hreg Hc. split; [done |]. intros i Hi.
      assert (i = count is_recall_message (trace w)) as -> by lia. eauto. }
    assert (Hnext : ∀ w1 : world,
              last_sent_message_ids w1 = last_sent_message_ids w →
              count is_recall_message (trace w1)
              = S (count is_recall_message (trace w)) →
              recall_loop env c m R base todo (S a) w1 = (r, w') →
              (last_sent_message_ids w' = last_sent_message_ids w
               ∧ ∀ i, (count is_recall_message (trace w) ≤ i
                       < count is_recall_message (trace w'))%nat →
                      ∃ e, env_recall_message env i = Raised e)
              ∨ (r = Returned tt
                 ∧ last_sent_message_ids w' = delete c (last_sent_message_ids w)
                 ∧ (count is_recall_message (trace w)
                    < count is_recall_message (trace w'))%nat
                 ∧ ∃ u, env_recall_message env
                          (count is_recall_message (trace w') - 1) = Returned u)).
    { intros w1 Hreg Hc Hl. destruct (IH _ _ _ _ Hl) as [[H1 H2] | (H1 & H2 & H3 & H4)].
      - left. split; [congruence |]. intros i Hi.
        destruct (decide (i = count is_recall_message (trace w))) as [-> | Hne];
          [eauto | apply H2; lia].
      - right. split_and!; [done | congruence | lia | done]. }
    assert (Hc1 : count is_recall_message
                    (trace (suspend_locked (call_recall_message c m) w))
                  = S (count is_recall_message (trace w)))
      by (simpl; rewrite count_app; simpl; lia).
    assert (Hc2 : count is_recall_message
                    (trace (suspend_locked (call_sleep (backoff_delay base a))
                              (suspend_locked (call_recall_message c m) w)))
                  = S (count is_recall_message (trace w)))
      by (simpl; rewrite !count_app; simpl; lia).
    destruct (isinstance_Exception e).
    2:{ injection H as <- <-. left. refine (Hstop _ _ Hc1). reflexivity. }
    destruct (Z.of_nat a <? R).
    + destruct (env_sleep env (count is_sleep (trace w))).
      * injection H as <- <-. left. refine (Hstop _ _ Hc2). reflexivity.
      * refine (Hnext _ _ Hc2 H). reflexivity.
    + refine (Hnext _ _ Hc1 H). reflexivity.
Qed.

End ClearFacts.

(** X15: the recall routine removes the channel's entry only when a
    [recall_message] call has succeeded.  When it is left by a signal, and
    when none of its recall calls succeeded, the registry is exactly as it
    was; and when the registry has changed, the last recall call of the
    invocation succeeded and the routine returned. *)
Theorem entry_cleared_only_by_successful_recall
    (env : Env) (c m : string) (lsi : bool) (R : Z) (base : Q) (w : world) :
  let run := _recall_and_clear_message_id env c m lsi R base w in
  let first := count is_recall_message (trace w) in
  let last := count is_recall_message (trace (snd run)) in
  (∀ e, fst run = Raised e → last_sent_message_ids (snd run) = last_sent_message_ids w)
  ∧ ((∀ i u, (first ≤ i < last)%nat → env_recall_message env i ≠ Returned u) →
     last_sent_message_ids (snd run) = last_sent_message_ids w)
  ∧ (last_sent_message_ids (snd run) ≠ last_sent_message_ids w →
     fst run = Returned tt
     ∧ (first < last)%nat
     ∧ ∃ u, env_recall_message env (last - 1) = Returned u).
Proof.
  intros run first last.
  assert (Hd :
    (last_sent_message_ids (snd run) = last_sent_message_ids w
     ∧ ∀ i, (first ≤ i < last)%nat → ∃ e, env_recall_message env i = Raised e)
    ∨ (fst run = Returned tt
       ∧ last_sent_message_ids (snd run) = delete c (last_sent_message_ids w)
       ∧ (first < last)%nat
       ∧ ∃ u, env_recall_message env (last - 1) = Returned u)).
  { subst run first last. unfold _recall_and_clear_message_id. cbv zeta.
    case_bool_decide as Hcur.
    - match goal with
      | |- context [recall_loop ?e ?c ?m ?R ?b ?t ?a ?w0] =>
          destruct (recall_loop e c m R b t a w0) as [r w'] eqn:Hloop
      end.
      destruct (recall_loop_dichotomy _ _ _ _ _ _ _ _ _ _ Hloop)
        as [[H1 H2] | (H1 & H2 & H3 & H4)]; simpl in *;
        rewrite count_app in *; simpl in *.
      + left. split; [done |]. intros i Hi. apply H2. lia.
      + right. split_and!; try done. lia.
    - left. simpl. split; [done |]. rewrite count_app. simpl. intros i Hi. lia. }
  split_and!.
  - intros e He. destruct Hd as [[H1 _] | (H1 & _)]; [done | congruence].
  - intros Hnone. destruct Hd as [[H1 _] | (_ & _ & Hlt & u & Hu)]; [done |].
    exfalso. apply (Hnone (last - 1)%nat u); [lia | done].
  - intros Hchanged. destruct Hd as [[H1 _] | (H1 & _ & H3 & H4)]; [done | done].
Qed.
